(** * app.py: a two-species competition model, its formatting helper and
      the phase-plane script around SciPy's solver

    The development follows the Python file top to bottom.  Python values are
    modelled by what the interpreter computes with: a [float] is an IEEE
    binary64 number (Rocq's primitive floats), an [int] is a [Z], exceptions
    are an error monad.  The vector field [model] is written once, over an
    interface of numbers, and read at three carriers: exact reals (the
    numbers of the mathematical model), Python floats and NumPy float64
    scalars.  Python's mixed arithmetic of ints and floats, in which every
    operation can raise, has a reading of its own (module [Py]).

    Part I holds the definitions, Part II the theorems on the vector field,
    the helper and the script, Part III further properties of the same
    code. *)

From Stdlib Require Import ZArith NArith Bool List String Ascii Floats Reals Lra Lia.
From Stdlib Require Import DecimalString DecimalZ DecimalPos.
From Stdlib Require DecimalFacts.
Import ListNotations.

Set Warnings "-inexact-float".

Open Scope string_scope.
Open Scope Z_scope.

(** * Part I: definitions *)

(** ** Exceptions and the error monad *)

(** The built-in exceptions that the arithmetic and the unpacking of app.py
    can raise. *)
Inductive exn : Type :=
| ZeroDivisionError
| OverflowError
| ValueError.

(** The class name of an exception, as Python prints it. *)
Definition exn_name (e : exn) : string :=
  match e with
  | ZeroDivisionError => "ZeroDivisionError"
  | OverflowError => "OverflowError"
  | ValueError => "ValueError"
  end.

Definition result (A : Type) : Type := (exn + A)%type.

Definition ret {A : Type} (a : A) : result A := inr a.

Definition raise {A : Type} (e : exn) : result A := inl e.

Definition bind {A B : Type} (c : result A) (k : A -> result B) : result B :=
  match c with
  | inl e => inl e
  | inr a => k a
  end.

Notation "x <- c ;; k" := (bind c (fun x => k))
  (at level 61, c at next level, right associativity).

(** A [for] loop over a list whose body updates the variables [S] and may
    raise. *)
Fixpoint for_each {A S : Type} (body : S -> A -> result S) (l : list A) (st : S)
  : result S :=
  match l with
  | [] => ret st
  | a :: l' => st' <- body st a ;; for_each body l' st'
  end.

(** [a, b = l]: unpacking a sequence into exactly two names. *)
Definition unpack2 {A : Type} (l : list A) : result (A * A) :=
  match l with
  | [a; b] => ret (a, b)
  | _ => raise ValueError
  end.

(** ** Numbers

    [model] only uses [+], [-], [*], [/] and the literal [1]; Python runs it
    on whatever supports them.  [traps y] says whether a true division by [y]
    raises [ZeroDivisionError]; [n_quot] is the quotient it returns
    otherwise. *)
Class Number (T : Type) : Type := {
  of_int : Z -> T;
  n_add : T -> T -> T;
  n_sub : T -> T -> T;
  n_mul : T -> T -> T;
  n_quot : T -> T -> T;
  traps : T -> bool
}.

Declare Scope num_scope.
Delimit Scope num_scope with num.
Infix "+" := n_add : num_scope.
Infix "-" := n_sub : num_scope.
Infix "*" := n_mul : num_scope.

(** [x / y] of Python. *)
Definition truediv {T : Type} `{Number T} (x y : T) : result T :=
  if traps y then raise ZeroDivisionError else ret (n_quot x y).

(** Exact real arithmetic. *)
#[export] Instance R_number : Number R := {|
  of_int := IZR;
  n_add := Rplus;
  n_sub := Rminus;
  n_mul := Rmult;
  n_quot := Rdiv;
  traps := fun y => if Req_dec_T y 0%R then true else false
|}.

(** [float(z)] for an int in range: the nearest binary64, ties to even. *)
Definition float_of_Z (z : Z) : float :=
  SF2Prim (binary_normalize prec emax z 0 false).

(** Python's [float]: binary64, and a division by [0.0] or [-0.0] raises. *)
#[export] Instance float_number : Number float := {|
  of_int := float_of_Z;
  n_add := PrimFloat.add;
  n_sub := PrimFloat.sub;
  n_mul := PrimFloat.mul;
  n_quot := PrimFloat.div;
  traps := fun y => PrimFloat.eqb y 0%float
|}.

(** NumPy's [float64] scalar, what [s] and [r] are when SciPy calls [model]
    on its state array: the same binary64 operations, but a division by zero
    only warns and returns an infinity or a NaN. *)
Record float64 : Type := F64 { f64 : float }.

#[export] Instance float64_number : Number float64 := {|
  of_int := fun z => F64 (float_of_Z z);
  n_add := fun x y => F64 (f64 x + f64 y)%float;
  n_sub := fun x y => F64 (f64 x - f64 y)%float;
  n_mul := fun x y => F64 (f64 x * f64 y)%float;
  n_quot := fun x y => F64 (f64 x / f64 y)%float;
  traps := fun _ => false
|}.

(** [not math.isfinite(x)]: an infinity or a NaN. *)
Definition nonfinite (x : float) : bool :=
  match Prim2SF x with
  | S754_nan | S754_infinity _ => true
  | _ => false
  end.

(** ** The vector field (app.py, lines 7-11) *)

Section Model.
Context {T : Type} `{Number T}.
Local Open Scope num_scope.

(** [def model(t, y, rho, K, m, alpha, C, beta)].  The two assignments are
    evaluated in order, each division when Python reaches it. *)
Definition model (t : T) (y : T * T) (rho K m alpha C beta : T)
  : result (T * T) :=
  let '(s, r) := y in
  q <- truediv (s + m * r) K ;;
  let ds_dt := rho * (of_int 1 - q) * s - alpha * C * s in
  q1 <- truediv (s + m * r) K ;;
  q2 <- truediv (beta * s) K ;;
  let dr_dt := rho * (of_int 1 - q1) * r - q2 * r in
  ret (ds_dt, dr_dt).
End Model.

(** ** Python numbers as the script holds them: ints and floats *)

Inductive num : Type :=
| Int (z : Z)
| Float (f : float).

(** An int as an exact (unrounded) binary number. *)
Definition Z2SF (z : Z) : spec_float :=
  match z with
  | Z0 => S754_zero false
  | Zpos p => S754_finite false p 0
  | Zneg p => S754_finite true p 0
  end.

(** The correctly rounded quotient of two ints, as [a / b] computes it. *)
Definition int_quot (a b : Z) : float :=
  SF2Prim (SFdiv prec emax (Z2SF a) (Z2SF b)).

(** [a / b] on ints. *)
Definition int_truediv (a b : Z) : result float :=
  if b =? 0 then raise ZeroDivisionError
  else if is_infinity (int_quot a b) then raise OverflowError
  else ret (int_quot a b).

(** [float(z)], which refuses an int beyond the range of binary64. *)
Definition float_of_int (z : Z) : result float :=
  if is_infinity (float_of_Z z) then raise OverflowError
  else ret (float_of_Z z).

(** [x / z] for an int [z]. *)
Definition truediv_int (x : num) (z : Z) : result float :=
  match x with
  | Int a => int_truediv a z
  | Float f => d <- float_of_int z ;; truediv f d
  end.

(** [f >= z] for a float and an int: Python compares the exact values. *)
Definition float_ge_Z (f : float) (z : Z) : bool :=
  match Prim2SF f with
  | S754_nan => false
  | S754_infinity s => negb s
  | S754_zero _ => z <=? 0
  | S754_finite s m e =>
      z * 2 ^ Z.max (- e) 0 <=? (if s then Zneg m else Zpos m) * 2 ^ Z.max e 0
  end.

(** [x >= z] for an int [z]. *)
Definition ge_int (x : num) (z : Z) : bool :=
  match x with
  | Int a => z <=? a
  | Float f => float_ge_Z f z
  end.

(** The float a number becomes inside a NumPy float64 array. *)
Definition as_float (x : num) : float :=
  match x with
  | Int z => float_of_Z z
  | Float f => f
  end.

(** ** The vector field called on Python's own numbers

    Called directly, [model] may be given ints as well as floats (the script
    itself holds [k] and [m] as ints).  Python then computes with its mixed
    arithmetic, in which every operation can raise: an int that meets a
    float is converted first, and the conversion raises OverflowError
    beyond the range of the floats. *)
Module Py.

(** The operand of a float operation, converted. *)
Definition to_float (x : num) : result float :=
  match x with
  | Int z => float_of_int z
  | Float f => ret f
  end.

(** [x + y], [x - y] and [x * y]: exact on two ints, on floats otherwise,
    the left operand converted first. *)
Definition arith (on_int : Z -> Z -> Z) (on_float : float -> float -> float)
    (x y : num) : result num :=
  match x, y with
  | Int a, Int b => ret (Int (on_int a b))
  | _, _ => a <- to_float x ;; b <- to_float y ;; ret (Float (on_float a b))
  end.

Definition add : num -> num -> result num := arith Z.add PrimFloat.add.
Definition sub : num -> num -> result num := arith Z.sub PrimFloat.sub.
Definition mul : num -> num -> result num := arith Z.mul PrimFloat.mul.

(** [x / y]: the correctly rounded quotient of two ints; on floats
    otherwise, both operands converted before the divisor is tested. *)
Definition div (x y : num) : result num :=
  match x, y with
  | Int a, Int b => q <- int_truediv a b ;; ret (Float q)
  | _, _ =>
      a <- to_float x ;; b <- to_float y ;;
      q <- truediv a b ;; ret (Float q)
  end.

(** [def model(t, y, rho, K, m, alpha, C, beta)], each operation when
    Python reaches it: operands left to right, inner expressions first. *)
Definition model (t : num) (y : num * num) (rho K m alpha C beta : num)
  : result (num * num) :=
  let '(s, r) := y in
  ds_dt <- (a <- mul m r ;; a <- add s a ;; a <- div a K ;;
            a <- sub (Int 1) a ;; a <- mul rho a ;; a <- mul a s ;;
            b <- mul alpha C ;; b <- mul b s ;;
            sub a b) ;;
  dr_dt <- (a <- mul m r ;; a <- add s a ;; a <- div a K ;;
            a <- sub (Int 1) a ;; a <- mul rho a ;; a <- mul a r ;;
            b <- mul beta s ;; b <- div b K ;; b <- mul b r ;;
            sub a b) ;;
  ret (ds_dt, dr_dt).

(** [x == 0]. *)
Definition is_zero (x : num) : bool :=
  match x with
  | Int z => z =? 0
  | Float f => (f =? 0)%float
  end.
End Py.

(** ** Strings of numbers *)

(** The decimal digits of an int, after its sign if it is negative. *)
Definition str_int (z : Z) : string := NilZero.string_of_int (Z.to_int z).

(** [sys.get_int_max_str_digits()], at its default: from CPython 3.11 on,
    [str] refuses an int of more decimal digits than this. *)
Definition int_max_str_digits : Z := 4300.

(** The number of decimal digits of an int, the sign left out. *)
Definition int_digits (z : Z) : Z :=
  Z.of_nat (String.length (str_int (Z.abs z))).

(** [str(z)] for an int. *)
Definition str_of_int (z : Z) : result string :=
  if int_max_str_digits <? int_digits z then raise ValueError
  else ret (str_int z).

Definition sign_str (s : bool) : string := if s then "-" else "".

(** The integer nearest to [a / b], ties to the even one ([0 <= a], [0 < b]). *)
Definition round_half_even (a b : Z) : Z :=
  let q := a / b in
  match Z.compare (2 * (a mod b)) b with
  | Lt => q
  | Gt => q + 1
  | Eq => if Z.even q then q else q + 1
  end.

(** [format(f, ".1f")]: the exact binary value rounded to one decimal. *)
Definition format_1f (f : float) : string :=
  match Prim2SF f with
  | S754_nan => "nan"
  | S754_infinity s => sign_str s ++ "inf"
  | S754_zero s => sign_str s ++ "0.0"
  | S754_finite s m e =>
      let n := match e with
               | Zneg p => round_half_even (10 * Zpos m) (2 ^ Zpos p)
               | _ => 10 * Zpos m * 2 ^ e
               end in
      sign_str s ++ str_int (n / 10) ++ "." ++ str_int (n mod 10)
  end.

(** *** [repr] of a float: the shortest decimal that reads back as it *)

(** [d * 10^k] compared with [x * 2^e], exactly. *)
Definition cmp_dec_bin (d k x e : Z) : comparison :=
  Z.compare (d * 10 ^ Z.max k 0 * 2 ^ Z.max (- e) 0)
            (x * 2 ^ Z.max e 0 * 10 ^ Z.max (- k) 0).

(** [floor (x * 2^e / 10^k)]. *)
Definition floor_bin_dec (x e k : Z) : Z :=
  (x * 2 ^ Z.max e 0 * 10 ^ Z.max (- k) 0) / (10 ^ Z.max k 0 * 2 ^ Z.max (- e) 0).

(** The least [p' >= p] with [m * 2^e < 10^p'], among [fuel] values. *)
Fixpoint decpt_from (fuel : nat) (m e p : Z) : Z :=
  match fuel with
  | O => p
  | S fuel' =>
      match cmp_dec_bin 1 p m e with
      | Gt => p
      | _ => decpt_from fuel' m e (p + 1)
      end
  end.

(** The position of the decimal point of [m * 2^e]: the search starts just
    below the estimate that the binary length gives. *)
Definition decpt_of (m e : Z) : Z :=
  decpt_from 8 m e ((Z.log2 m + 1 + e) * 30103 / 100000 - 3).

Definition within (incl : bool) (c side : comparison) : bool :=
  match c, side with
  | Eq, _ => incl
  | Lt, Lt => true
  | Gt, Gt => true
  | _, _ => false
  end.

(** Whether [d * 10^k] reads back as the float [m * 2^e]: it lies between the
    midpoints to the two neighbours, which count when [m] is even. *)
Definition rounds_to (m e d k : Z) : bool :=
  let incl := Z.even m in
  let below := if (m =? 2 ^ 52) && (-1074 <? e) then 1 else 2 in
  within incl (cmp_dec_bin d k (4 * m - below) (e - 2)) Gt &&
  within incl (cmp_dec_bin d k (4 * m + 2) (e - 2)) Lt.

(** A decimal of [n] digits that reads back as [m * 2^e], the nearer one when
    two do. *)
Definition candidate (m e p n : Z) : option (Z * Z) :=
  let k := p - n in
  let lo := floor_bin_dec m e k in
  let hi := lo + 1 in
  match rounds_to m e lo k, rounds_to m e hi k with
  | true, false => Some (lo, k)
  | false, true => Some (hi, k)
  | false, false => None
  | true, true =>
      match cmp_dec_bin (lo + hi) k (2 * m) e with
      | Gt => Some (lo, k)
      | Lt => Some (hi, k)
      | Eq => Some (if Z.even lo then lo else hi, k)
      end
  end.

Fixpoint shortest (fuel : nat) (m e p n : Z) : Z * Z :=
  match fuel with
  | O => (floor_bin_dec m e (p - n), p - n)
  | S fuel' =>
      match candidate m e p n with
      | Some dk => dk
      | None => shortest fuel' m e p (n + 1)
      end
  end.

Fixpoint strip_zeros (fuel : nat) (d k : Z) : Z * Z :=
  match fuel with
  | O => (d, k)
  | S fuel' =>
      if (d mod 10 =? 0) && (0 <? d) then strip_zeros fuel' (d / 10) (k + 1)
      else (d, k)
  end.

Fixpoint zeros (n : nat) : string :=
  match n with
  | O => ""
  | S n' => String "0" (zeros n')
  end.

Definition pad2 (z : Z) : string :=
  if z <? 10 then "0" ++ str_int z else str_int z.

(** The digits [ds] with the decimal point after [decpt] of them, in the
    notation [repr] chooses: an exponent below 1e-4 and from 1e16 on. *)
Definition repr_digits (ds : string) (decpt : Z) : string :=
  let len := String.length ds in
  let nd := Z.of_nat len in
  if (decpt <=? -4) || (16 <? decpt) then
    substring 0 1 ds
    ++ (if 1 <? nd then "." ++ substring 1 (len - 1) ds else "")
    ++ "e" ++ (if decpt - 1 <? 0 then "-" else "+") ++ pad2 (Z.abs (decpt - 1))
  else if decpt <=? 0 then "0." ++ zeros (Z.to_nat (- decpt)) ++ ds
  else if nd <=? decpt then ds ++ zeros (Z.to_nat (decpt - nd)) ++ ".0"
  else substring 0 (Z.to_nat decpt) ds ++ "."
       ++ substring (Z.to_nat decpt) (len - Z.to_nat decpt) ds.

(** [repr(f)], also [str(f)]. *)
Definition float_repr (f : float) : string :=
  match Prim2SF f with
  | S754_nan => "nan"
  | S754_infinity s => sign_str s ++ "inf"
  | S754_zero s => sign_str s ++ "0.0"
  | S754_finite s m e =>
      let p := decpt_of (Zpos m) e in
      let '(d, k) := shortest 17 (Zpos m) e p 1 in
      let '(d, k) := strip_zeros 20 d k in
      let ds := str_int d in
      sign_str s ++ repr_digits ds (Z.of_nat (String.length ds) + k)
  end.

(** [str(x)]. *)
Definition str (x : num) : result string :=
  match x with
  | Int z => str_of_int z
  | Float f => ret (float_repr f)
  end.

(** ** The formatting helper (app.py, lines 89-92) *)

Definition format_number (num : num) : result string :=
  if ge_int num 1000 then
    q <- truediv_int num 1000 ;;
    ret (format_1f q ++ "k")
  else str num.

(** ** NumPy and SciPy, as far as the script uses them *)

Definition float_of_nat (n : nat) : float := float_of_Z (Z.of_nat n).

(** [y[-1] = v]. *)
Definition set_last {A : Type} (l : list A) (v : A) : list A :=
  match l with
  | [] => []
  | _ => (removelast l ++ [v])%list
  end.

(** [np.linspace(start, stop, num)] with its default [endpoint=True], as
    NumPy computes it: [arange(0, num) * step + start] with
    [step = (stop - start) / (num - 1)], the last sample then set to [stop].
    A step that underflows to zero makes NumPy divide first. *)
Definition linspace (start stop : float) (num : nat) : list float :=
  let div := (num - 1)%nat in
  let delta := (stop - start)%float in
  let y := map float_of_nat (seq 0 num) in
  let y :=
    if (0 <? div)%nat then
      let step := (delta / float_of_nat div)%float in
      if (step =? 0)%float
      then map (fun v => (v / float_of_nat div * delta)%float) y
      else map (fun v => (v * step)%float) y
    else map (fun v => (v * delta)%float) y in
  let y := map (fun v => (v + start)%float) y in
  if (1 <? num)%nat then set_last y stop else y.

(** The object [solve_ivp] returns: the times, one row of values per state
    component, and how the integration ended ([status] 0 and [success] True
    when it reached the end of the span, -1 and False when a step failed). *)
Module Ode.
Record Result : Type := {
  t : list float;
  y : list (list float);
  status : Z;
  message : string;
  success : bool
}.
End Ode.

(** The right-hand side as SciPy calls it, [fun(t, y)] on float64 values. *)
Definition rhs : Type := float64 -> float64 * float64 -> result (float64 * float64).

(** [solve_ivp(fun, t_span, y0, t_eval=...)] for a system of two equations.
    SciPy is not part of the repository: the solver is a parameter of what
    follows, a function of its arguments. *)
Definition solver : Type :=
  rhs -> float * float -> float * float -> list float -> result Ode.Result.

(** What SciPy keeps of a result it returns for two equations: either no
    evaluation time was reached, and [t] and [y] are both empty lists, or [y]
    has one row per component and one column per time of [t]; an integration
    that succeeds reports exactly the times of [t_eval]. *)
Definition scipy_contract (solve_ivp : solver) : Prop :=
  forall f span y0 t_eval sol,
    solve_ivp f span y0 t_eval = ret sol ->
    (Ode.t sol = [] /\ Ode.y sol = [] \/
     List.length (Ode.y sol) = 2%nat /\
     Forall (fun row => List.length row = List.length (Ode.t sol)) (Ode.y sol)) /\
    (Ode.success sol = true -> Ode.t sol = t_eval).

(** ** Plotly figures, as far as the script fills them

    A figure is its list of traces and its list of annotations; titles,
    colours and the other layout settings are left out. *)

Module go.
Record Scatter : Type := {
  x : list float;
  y : list float;
  mode : string;
  name : string
}.

Record Annotation : Type := {
  ax : num;
  ay : num;
  text : string;
  showarrow : bool;
  arrowhead : Z
}.

Record Figure : Type := {
  data : list Scatter;
  annotations : list Annotation
}.

Definition empty : Figure := {| data := []; annotations := [] |}.

Definition add_trace (fig : Figure) (tr : Scatter) : Figure :=
  {| data := (data fig ++ [tr])%list; annotations := annotations fig |}.

Definition add_annotation (fig : Figure) (a : Annotation) : Figure :=
  {| data := data fig; annotations := (annotations fig ++ [a])%list |}.
End go.

(** ** The script (app.py, lines 46-106) *)

Module App.

Definition rho_s : float := 0.031.
Definition rho_r : float := 0.026.
Definition k : Z := 4800000.
Definition m : Z := 30.
Definition alpha : float := 0.06.

(** [beta = k*6.25*10**(-7)]; [10**(-7)] is the float [1e-07]. *)
Definition beta : float := (float_of_Z k * 6.25 * 1e-7)%float.

Definition t_span : Z * Z := (0, 700).

(** [t_eval = np.linspace(t_span[0], t_span[1], 500)]. *)
Definition t_eval : list float :=
  linspace (float_of_Z (fst t_span)) (float_of_Z (snd t_span)) 500.

(** The candidates of the multiselect, each expression as Python evaluates
    it: [0.1*10**6], [1.4*10**5] and [k/m-100] are floats. *)
Definition default_init_cond : list (num * num) :=
  [ (Int (10 ^ 6), Int (10 ^ 5));
    (Float (0.1 * float_of_Z (10 ^ 6)), Float (1.4 * float_of_Z (10 ^ 5)));
    (Int (4 * 10 ^ 4), Float (int_quot k m - float_of_Z 100));
    (Int (11 * 10 ^ 5), Int (5 * 10 ^ 4));
    (Int (17 * 10 ^ 5), Int (2 * 10 ^ 4)) ].

(** [equilibrium_points = [(0, k/m), (k, 0), (0, 0)]]. *)
Definition equilibrium_points : list (num * num) :=
  [ (Int 0, Float (int_quot k m)); (Int k, Int 0); (Int 0, Int 0) ].

(** The variables that the script assigns from line 61 on; the loop of
    lines 102-106 assigns [solution], [s], [r] and [fig_phase_plane]
    again. *)
Record Vars : Type := {
  solution : Ode.Result;
  t : list float;
  s : list float;
  r : list float;
  fig : go.Figure;
  fig_phase_plane : go.Figure
}.

Section Run.
(** SciPy's solver, the drug concentration and the initial populations
    of the number inputs, and the selection of the multiselect. *)
Variable solve_ivp : solver.
Variables (C s0 r0 : float).
Variable init_cond : list (num * num).

(** [model] with [args=(rho_s, k, m, alpha, C, beta)]: SciPy passes the
    state as float64 values, which turn every operand they meet into a
    float64. *)
Definition field : rhs :=
  fun t y =>
    model t y (F64 rho_s) (F64 (float_of_Z k)) (F64 (float_of_Z m))
          (F64 alpha) (F64 C) (F64 beta).

(** [solve_ivp(model, t_span, y0, t_eval=t_eval, args=(...))], the call
    of lines 61 and 104. *)
Definition integrate (y0 : float * float) : result Ode.Result :=
  solve_ivp field (float_of_Z (fst t_span), float_of_Z (snd t_span)) y0 t_eval.

(** Lines 59-69: the simulation and its figure.  [fig_phase_plane], created
    empty at line 94, is held empty from here on. *)
Definition simulate : result Vars :=
  let y0 := (s0, r0) in
  solution <- integrate y0 ;;
  let t := Ode.t solution in
  sr <- unpack2 (Ode.y solution) ;;
  let '(s, r) := sr in
  let fig := go.empty in
  let fig := go.add_trace fig
    {| go.x := t; go.y := s; go.mode := "lines"; go.name := "S" |} in
  let fig := go.add_trace fig
    {| go.x := t; go.y := r; go.mode := "lines"; go.name := "R" |} in
  ret {| solution := solution; t := t; s := s; r := r; fig := fig;
         fig_phase_plane := go.empty |}.

(** Lines 98-99: the body of the loop over [equilibrium_points]. *)
Definition annotate (v : Vars) (point : num * num) : result Vars :=
  a <- format_number (fst point) ;;
  b <- format_number (snd point) ;;
  let note :=
    {| go.ax := fst point; go.ay := snd point;
       go.text := "(" ++ a ++ "," ++ b ++ ")";
       go.showarrow := true; go.arrowhead := 2 |} in
  ret {| solution := solution v; t := t v; s := s v; r := r v; fig := fig v;
         fig_phase_plane := go.add_annotation (fig_phase_plane v) note |}.

(** Lines 103-106: the body of the loop over [init_cond]. *)
Definition trajectory (v : Vars) (elt : num * num) : result Vars :=
  let '(S0, R0) := elt in
  solution <- integrate (as_float S0, as_float R0) ;;
  sr <- unpack2 (Ode.y solution) ;;
  let '(s, r) := sr in
  a <- format_number S0 ;;
  b <- format_number R0 ;;
  let tr :=
    {| go.x := s; go.y := r; go.mode := "lines";
       go.name := "S0=" ++ a ++ ", R0=" ++ b |} in
  ret {| solution := solution; t := t v; s := s; r := r; fig := fig v;
         fig_phase_plane := go.add_trace (fig_phase_plane v) tr |}.

(** Lines 59-106. *)
Definition script : result Vars :=
  v <- simulate ;;
  v <- for_each annotate equilibrium_points v ;;
  for_each trajectory init_cond v.
End Run.

End App.

(** The trace that the loop of lines 102-106 adds for [elt]: the two rows of
    the integration started at [elt], under the label of [elt]. *)
Definition trace_of (solve_ivp : solver) (C : float) (elt : num * num)
    (tr : go.Scatter) : Prop :=
  exists sol a b,
    App.integrate solve_ivp C (as_float (fst elt), as_float (snd elt)) = ret sol /\
    Ode.y sol = [go.x tr; go.y tr] /\
    format_number (fst elt) = ret a /\
    format_number (snd elt) = ret b /\
    go.name tr = "S0=" ++ a ++ ", R0=" ++ b.

(** Times in strictly increasing order. *)
Definition strictly_increasing (l : list float) : Prop :=
  forall i j, (i < j < List.length l)%nat ->
              (nth i l 0 <? nth j l 0)%float = true.

(** The same, as a check: every element is below all the later ones. *)
Fixpoint pairwise_lt (l : list float) : bool :=
  match l with
  | [] => true
  | a :: l' => forallb (fun b => (a <? b)%float) l' && pairwise_lt l'
  end.

(** ** Two stand-ins for the solver, to run the script *)

(** Explicit Euler steps from one requested time to the next. *)
Fixpoint euler_steps (f : rhs) (t : float) (y : float * float) (ts : list float)
  : result (list float * list float) :=
  match ts with
  | [] => ret ([], [])
  | t' :: ts' =>
      d <- f (F64 t) (F64 (fst y), F64 (snd y)) ;;
      let h := (t' - t)%float in
      let y' := ((fst y + h * f64 (fst d))%float, (snd y + h * f64 (snd d))%float) in
      rows <- euler_steps f t' y' ts' ;;
      ret (fst y' :: fst rows, snd y' :: snd rows)
  end.

(** A solver that always reaches the end of the span. *)
Definition euler : solver :=
  fun f span y0 t_eval =>
    rows <- euler_steps f (fst span) y0 t_eval ;;
    ret {| Ode.t := t_eval; Ode.y := [fst rows; snd rows]; Ode.status := 0;
           Ode.message := "The solver successfully reached the end of the integration interval.";
           Ode.success := true |}.

(** A solver whose budget ends after [n] of the requested times: it reports
    the failure the way SciPy does, with the samples reached so far. *)
Definition gives_up (n : nat) : solver :=
  fun f span y0 t_eval =>
    rows <- euler_steps f (fst span) y0 (firstn n t_eval) ;;
    ret {| Ode.t := firstn n t_eval; Ode.y := [fst rows; snd rows];
           Ode.status := -1;
           Ode.message := "Required step size is less than spacing between numbers.";
           Ode.success := false |}.

(** ** Characters of strings *)

(** [s.endswith("k")]. *)
Fixpoint ends_with_k (s : string) : bool :=
  match s with
  | EmptyString => false
  | String c s' =>
      match s' with
      | EmptyString => Ascii.eqb c "k"
      | _ => ends_with_k s'
      end
  end.

(** Whether every character of [s] passes [p]. *)
Fixpoint all_chars (p : ascii -> bool) (s : string) : bool :=
  match s with
  | EmptyString => true
  | String c s' => p c && all_chars p s'
  end.

Definition not_k (c : ascii) : bool := negb (Ascii.eqb c "k").

(** The variables [v] with another phase-plane figure. *)
Definition with_phase_plane (v : App.Vars) (f : go.Figure) : App.Vars :=
  {| App.solution := App.solution v; App.t := App.t v; App.s := App.s v;
     App.r := App.r v; App.fig := App.fig v; App.fig_phase_plane := f |}.

(** The call of lines 61 and 104 returns, from the initial state [y0], a
    result whose [y] has the two rows that the script unpacks. *)
Definition integrates (solve_ivp : solver) (C : float) (y0 : float * float)
  : Prop :=
  exists sol,
    App.integrate solve_ivp C y0 = ret sol /\ List.length (Ode.y sol) = 2%nat.

(** A solver whose first step fails on the initial states that [bad]
    selects: SciPy then returns empty lists for [t] and [y], with status -1.
    On the other initial states it is [euler]. *)
Definition fails_when (bad : float * float -> bool) : solver :=
  fun f span y0 t_eval =>
    if bad y0 then
      ret {| Ode.t := []; Ode.y := []; Ode.status := -1;
             Ode.message := "Required step size is less than spacing between numbers.";
             Ode.success := false |}
    else euler f span y0 t_eval.

(** * Part II: theorems *)

(** ** The error monad and the number carriers *)

Lemma bind_ret {A B : Type} (a : A) (k : A -> result B) : bind (ret a) k = k a.
Proof. reflexivity. Qed.

Lemma bind_raise {A B : Type} (e : exn) (k : A -> result B) :
  bind (raise e) k = raise e.
Proof. reflexivity. Qed.

Lemma ret_inj {A : Type} (a b : A) : ret a = ret b -> a = b.
Proof. intros E. injection E. trivial. Qed.

Lemma traps_R_false (y : R) : traps y = false <-> y <> 0%R.
Proof.
  simpl. destruct (Req_dec_T y 0%R) as [e | n].
  - split; [discriminate | intros c; contradiction].
  - split; [intros _; exact n | reflexivity].
Qed.

Lemma traps_R_true (y : R) : traps y = true <-> y = 0%R.
Proof.
  simpl. destruct (Req_dec_T y 0%R) as [e | n].
  - split; [intros _; exact e | reflexivity].
  - split; [discriminate | intros c; contradiction].
Qed.

Lemma traps_float (y : float) : traps y = (y =? 0)%float.
Proof. reflexivity. Qed.

Lemma traps_float64 (y : float64) : traps y = false.
Proof. reflexivity. Qed.

(** No exception that the code can raise bears one of the names that the
    specification gives to its failures. *)
Lemma exn_name_builtin (e : exn) :
  exn_name e <> "InvalidParameter" /\ exn_name e <> "IntegrationFailure".
Proof. destruct e; split; discriminate. Qed.

(** ** The vector field *)

Section ModelFacts.
Context {T : Type} `{Number T}.
Local Open Scope num_scope.

Lemma truediv_ok (x y : T) : traps y = false -> truediv x y = ret (n_quot x y).
Proof. unfold truediv. intros ->. reflexivity. Qed.

Lemma truediv_raises (x y : T) :
  traps y = true -> truediv x y = raise ZeroDivisionError.
Proof. unfold truediv. intros ->. reflexivity. Qed.

(** Without a trap the three divisions go through. *)
Lemma model_no_trap (t s r rho K m alpha C beta : T) :
  traps K = false ->
  model t (s, r) rho K m alpha C beta =
  ret (rho * (of_int 1 - n_quot (s + m * r) K) * s - alpha * C * s,
       rho * (of_int 1 - n_quot (s + m * r) K) * r - n_quot (beta * s) K * r).
Proof.
  intros HK. unfold model.
  rewrite !truediv_ok by exact HK.
  reflexivity.
Qed.

(** C2. For every time, state (s, r) and parameters with K nonzero, the
    vector field returns exactly the pair
    (rho*(1-(s+m*r)/K)*s - alpha*C*s, rho*(1-(s+m*r)/K)*r - (beta*s/K)*r):
    negative populations are not clamped and there is no other branch.
    K nonzero is [traps K = false]: K <> 0 on the reals ([traps_R_false]),
    K == 0 being false on Python floats ([traps_float]), and any K on
    float64 values, whose division never raises. *)
Theorem model_formula (t s r rho K m alpha C beta : T) :
  traps K = false ->
  model t (s, r) rho K m alpha C beta =
  ret (rho * (of_int 1 - n_quot (s + m * r) K) * s - alpha * C * s,
       rho * (of_int 1 - n_quot (s + m * r) K) * r - n_quot (beta * s) K * r).
Proof.
  intros HK. unfold model, truediv. rewrite HK. reflexivity.
Qed.

(** With a divisor on which the division traps, the first division of the
    first assignment already raises. *)
Lemma model_raises (t : T) (y : T * T) (rho K m alpha C beta : T) :
  traps K = true ->
  model t y rho K m alpha C beta = raise ZeroDivisionError.
Proof.
  intros HK. destruct y as [s r]. unfold model.
  rewrite truediv_raises by exact HK.
  reflexivity.
Qed.

(** C8. The vector field is time-invariant: the time argument does not
    occur in the right-hand side, so two calls that differ only in their
    time return the same. *)
Theorem model_time_invariant (t1 t2 : T) (y : T * T)
    (rho K m alpha C beta : T) :
  model t1 y rho K m alpha C beta = model t2 y rho K m alpha C beta.
Proof.
  destruct y as [s r]. unfold model.
  destruct (truediv (s + m * r) K) as [e | q]; [reflexivity |].
  simpl. destruct (truediv (beta * s) K); reflexivity.
Qed.
End ModelFacts.

(** The formula at a concrete call on Python floats, negative populations
    included. *)
Lemma model_formula_witness :
  model 0%float ((-2)%float, 3%float) 1%float 4%float 2%float 1%float 1%float 3%float
  = ret (2%float, 4.5%float).
Proof.
  rewrite (model_formula 0%float (-2)%float 3%float 1%float 4%float 2%float
                         1%float 1%float 3%float) by reflexivity.
  reflexivity.
Defined.

(** *** Over the reals *)

Section RealField.
Variables (t rho K m alpha C beta : R).
Hypothesis K_nonzero : K <> 0%R.

Lemma model_R (s r : R) :
  model t (s, r) rho K m alpha C beta =
  ret ((rho * (1 - (s + m * r) / K) * s - alpha * C * s)%R,
       (rho * (1 - (s + m * r) / K) * r - beta * s / K * r)%R).
Proof.
  rewrite model_no_trap by (apply traps_R_false, K_nonzero).
  reflexivity.
Qed.

(** The origin is an equilibrium. *)
Lemma equilibrium_origin :
  model t (0%R, 0%R) rho K m alpha C beta = ret (0%R, 0%R).
Proof. rewrite model_R. f_equal. f_equal; field; exact K_nonzero. Qed.

(** The state (0, K/m) is an equilibrium. *)
Lemma equilibrium_resistant :
  m <> 0%R ->
  model t (0%R, (K / m)%R) rho K m alpha C beta = ret (0%R, 0%R).
Proof.
  intros Hm. rewrite model_R. f_equal.
  f_equal; field; split; assumption.
Qed.

(** At (K, 0) the sensitive population still decays under the drug: the
    derivative is (-alpha*C*K, 0). *)
Lemma field_at_capacity :
  model t (K, 0%R) rho K m alpha C beta = ret ((- (alpha * C * K))%R, 0%R).
Proof. rewrite model_R. f_equal. f_equal; field; exact K_nonzero. Qed.

(** So (K, 0) is an equilibrium exactly when alpha*C = 0: without drug. *)
Lemma equilibrium_capacity_iff :
  model t (K, 0%R) rho K m alpha C beta = ret (0%R, 0%R) <->
  (alpha * C)%R = 0%R.
Proof.
  rewrite field_at_capacity. split.
  - intros E. apply ret_inj in E. injection E as E.
    assert (Hz : (alpha * C * K)%R = 0%R) by lra.
    apply Rmult_integral in Hz. destruct Hz; [assumption | contradiction].
  - intros E. rewrite E. f_equal. f_equal. lra.
Qed.

(** The axes of the phase plane are invariant: on the axis s = 0 the first
    component is 0 for every r, on the axis r = 0 the second one is 0 for
    every s. *)
Lemma axes_invariant_real :
  (forall r, exists dr_dt,
      model t (0%R, r) rho K m alpha C beta = ret (0%R, dr_dt)) /\
  (forall s, exists ds_dt,
      model t (s, 0%R) rho K m alpha C beta = ret (ds_dt, 0%R)).
Proof.
  split; intros x; rewrite model_R; eexists; f_equal; f_equal; ring.
Qed.
End RealField.

Lemma equilibrium_origin_witness :
  model 0%R (0%R, 0%R) 1%R 2%R 3%R 1%R 1%R 1%R = ret (0%R, 0%R).
Proof. apply (equilibrium_origin 0%R 1%R 2%R 3%R 1%R 1%R 1%R). lra. Defined.

Lemma equilibrium_resistant_witness :
  model 0%R (0%R, (2 / 3)%R) 1%R 2%R 3%R 1%R 1%R 1%R = ret (0%R, 0%R).
Proof. apply (equilibrium_resistant 0%R 1%R 2%R 3%R 1%R 1%R 1%R); lra. Defined.

Lemma equilibrium_capacity_iff_witness :
  model 0%R (2%R, 0%R) 1%R 2%R 3%R 1%R 1%R 1%R = ret (0%R, 0%R) <->
  (1 * 1)%R = 0%R.
Proof. apply (equilibrium_capacity_iff 0%R 1%R 2%R 3%R 1%R 1%R 1%R). lra. Defined.

(** *** In binary64 *)

(** A float that compares equal to zero is one of the two zeros. *)
Lemma eqb_zero_spec (x : float) :
  (x =? 0)%float = true -> exists sx, Prim2SF x = S754_zero sx.
Proof.
  rewrite eqb_spec. change (Prim2SF 0%float) with (S754_zero false).
  destruct (Prim2SF x) as [sx | sx | | sx mx ex]; try discriminate.
  - intros _. exists sx. reflexivity.
  - destruct sx; discriminate.
  - destruct sx; discriminate.
Qed.

(** Dividing by a zero yields an infinity or a NaN. *)
Lemma nonfinite_div_zero (x K : float) :
  (K =? 0)%float = true -> nonfinite (x / K) = true.
Proof.
  intros HK. destruct (eqb_zero_spec K HK) as [sk Ek].
  unfold nonfinite. rewrite div_spec, Ek.
  destruct (Prim2SF x); reflexivity.
Qed.

(** Infinities and NaNs are absorbing for the three operations of [model]. *)
Lemma nonfinite_sub_r (x q : float) :
  nonfinite q = true -> nonfinite (x - q) = true.
Proof.
  unfold nonfinite. rewrite sub_spec.
  destruct (Prim2SF q) as [sq | sq | | sq mq eq]; try discriminate; intros _;
    destruct (Prim2SF x) as [sx | sx | | sx mx ex]; try reflexivity;
    destruct sx, sq; reflexivity.
Qed.

Lemma nonfinite_sub_l (a b : float) :
  nonfinite a = true -> nonfinite (a - b) = true.
Proof.
  unfold nonfinite. rewrite sub_spec.
  destruct (Prim2SF a) as [sa | sa | | sa ma ea]; try discriminate; intros _;
    destruct (Prim2SF b) as [sb | sb | | sb mb eb]; try reflexivity;
    destruct sa, sb; reflexivity.
Qed.

Lemma nonfinite_mul_l (a b : float) :
  nonfinite a = true -> nonfinite (a * b) = true.
Proof.
  unfold nonfinite. rewrite mul_spec.
  destruct (Prim2SF a) as [sa | sa | | sa ma ea]; try discriminate; intros _;
    destruct (Prim2SF b) as [sb | sb | | sb mb eb]; reflexivity.
Qed.

Lemma nonfinite_mul_r (a b : float) :
  nonfinite b = true -> nonfinite (a * b) = true.
Proof.
  unfold nonfinite. rewrite mul_spec.
  destruct (Prim2SF b) as [sb | sb | | sb mb eb]; try discriminate; intros _;
    destruct (Prim2SF a) as [sa | sa | | sa ma ea]; reflexivity.
Qed.

(** The names that the specification gives to its failures, for reference:
    no line of app.py raises or defines them. *)
Lemma no_InvalidParameter {A : Type} (c : result A) :
  ~ (exists e, c = raise e /\ exn_name e = "InvalidParameter").
Proof. intros [e [_ Hn]]. destruct (exn_name_builtin e) as [Hi _]. auto. Qed.

(** C3, as the code has it. With K = 0 (either zero of binary64) nothing
    checks the parameter before the integration.  Called on Python floats
    the vector field raises Python's own ZeroDivisionError at its first
    division and returns nothing; called on NumPy float64 values, as SciPy
    calls it, it returns a pair whose two components are infinities or
    NaNs. *)
Theorem model_K_zero (t s r rho K m alpha C beta : float) :
  (K =? 0)%float = true ->
  model t (s, r) rho K m alpha C beta = raise ZeroDivisionError /\
  exists ds_dt dr_dt,
    model (F64 t) (F64 s, F64 r) (F64 rho) (F64 K) (F64 m)
          (F64 alpha) (F64 C) (F64 beta) = ret (F64 ds_dt, F64 dr_dt) /\
    nonfinite ds_dt = true /\ nonfinite dr_dt = true.
Proof.
  intros HK. split.
  - apply model_raises. exact HK.
  - rewrite model_no_trap by reflexivity. simpl.
    eexists. eexists. split; [reflexivity |].
    pose proof (nonfinite_div_zero (s + m * r) K HK) as Hq.
    split; apply nonfinite_sub_l, nonfinite_mul_l, nonfinite_mul_r,
             nonfinite_sub_r; exact Hq.
Qed.

Lemma model_K_zero_witness :
  model 0%float (1%float, 1%float) 1%float 0%float 1%float 1%float 1%float 1%float
  = raise ZeroDivisionError /\
  exists ds_dt dr_dt,
    model (F64 0) (F64 1, F64 1) (F64 1) (F64 0) (F64 1) (F64 1) (F64 1) (F64 1)
    = ret (F64 ds_dt, F64 dr_dt) /\
    nonfinite ds_dt = true /\ nonfinite dr_dt = true.
Proof.
  apply (model_K_zero 0 1 1 1 0 1 1 1 1)%float. reflexivity.
Defined.

(** C3, as the specification states it, fails at K = 0: the failure of the
    call on Python floats is not an InvalidParameter, and the call on
    float64 values returns infinities without any failure. *)
Lemma model_K_zero_counterexample :
  ~ (exists e,
        model 0%float (1%float, 1%float) 1%float 0%float 1%float 1%float
              1%float 1%float = raise e /\
        exn_name e = "InvalidParameter") /\
  model (F64 0) (F64 1, F64 1) (F64 1) (F64 0) (F64 1) (F64 1) (F64 1) (F64 1)
  = ret (F64 neg_infinity, F64 neg_infinity).
Proof.
  split.
  - apply no_InvalidParameter.
  - reflexivity.
Qed.

(** *** The listed equilibria *)

(** C1, at the configuration of the script with its default C = 0.9. The
    script lists (k, 0) among its equilibrium points, yet there the vector
    field returns ds_dt = -259200: the drug term alpha*C*s does not vanish.
    The same value comes out on float64 values, as SciPy calls the field. *)
Theorem capacity_not_equilibrium :
  In (Int App.k, Int 0) App.equilibrium_points /\
  model 0%float (float_of_Z App.k, 0%float) App.rho_s (float_of_Z App.k)
        (float_of_Z App.m) App.alpha 0.9%float App.beta
  = ret ((-259200)%float, 0%float) /\
  App.field 0.9%float (F64 0) (F64 (float_of_Z App.k), F64 0)
  = ret (F64 (-259200), F64 0).
Proof.
  split; [right; left; reflexivity |].
  split; reflexivity.
Qed.

(** At the parameters of the script the two other listed points are
    equilibria, exactly. *)
Lemma script_equilibria_binary64 :
  model 0%float (0%float, int_quot App.k App.m) App.rho_s (float_of_Z App.k)
        (float_of_Z App.m) App.alpha 0.9%float App.beta = ret (0%float, 0%float) /\
  model 0%float (0%float, 0%float) App.rho_s (float_of_Z App.k)
        (float_of_Z App.m) App.alpha 0.9%float App.beta = ret (0%float, 0%float).
Proof. split; reflexivity. Qed.

(** Rounding, too, shows at (0, K/m): with K = 1 and m = 49 the quotient
    K/m times m is not K, and dr_dt is a tiny positive number. *)
Lemma resistant_rounding_example :
  model 0%float (0%float, (1 / 49)%float) 1%float 1%float 49%float 1%float
        1%float 1%float = ret (0%float, 2.2657612747452172e-18%float).
Proof. reflexivity. Qed.

(** *** The axes in binary64 *)

(** A finite factor times a zero is a zero. *)
Lemma mul_zero_finite (a s : float) :
  nonfinite a = false -> (s =? 0)%float = true -> (a * s =? 0)%float = true.
Proof.
  intros Ha Hs. destruct (eqb_zero_spec s Hs) as [ss Es].
  unfold nonfinite in Ha. rewrite eqb_spec, mul_spec, Es.
  change (Prim2SF 0%float) with (S754_zero false).
  destruct (Prim2SF a) as [sa | sa | | sa ma ea]; try discriminate; reflexivity.
Qed.

(** The difference of two zeros is a zero. *)
Lemma sub_zero_zero (x y : float) :
  (x =? 0)%float = true -> (y =? 0)%float = true -> (x - y =? 0)%float = true.
Proof.
  intros Hx Hy.
  destruct (eqb_zero_spec x Hx) as [sx Ex].
  destruct (eqb_zero_spec y Hy) as [sy Ey].
  rewrite eqb_spec, sub_spec, Ex, Ey.
  change (Prim2SF 0%float) with (S754_zero false).
  destruct sx, sy; reflexivity.
Qed.

(** On Python floats the axes are invariant as long as nothing overflows:
    with K nonzero and a finite growth factor rho*(1-(s+m*r)/K), a zero s
    gives ds_dt = 0 when alpha*C is finite, and a zero r gives dr_dt = 0 when
    beta*s/K is finite. *)
Lemma axes_invariant_binary64 (t s r rho K m alpha C beta : float) :
  (K =? 0)%float = false ->
  nonfinite (rho * (1 - (s + m * r) / K))%float = false ->
  exists ds_dt dr_dt,
    model t (s, r) rho K m alpha C beta = ret (ds_dt, dr_dt) /\
    ((s =? 0)%float = true -> nonfinite (alpha * C)%float = false ->
     (ds_dt =? 0)%float = true) /\
    ((r =? 0)%float = true -> nonfinite (beta * s / K)%float = false ->
     (dr_dt =? 0)%float = true).
Proof.
  intros HK Hg. rewrite model_no_trap by exact HK.
  eexists. eexists. split; [reflexivity |].
  change (float_of_Z 1) with 1%float. simpl.
  split.
  - intros Hs Hac. apply sub_zero_zero; apply mul_zero_finite; assumption.
  - intros Hr Hq. apply sub_zero_zero; apply mul_zero_finite; assumption.
Qed.

(** C10, as the code has it. The axes of the phase plane are invariant under
    the vector field as long as nothing overflows.  In exact real
    arithmetic, for every time and every parameters with K nonzero, s = 0
    gives ds_dt = 0 for every r, and r = 0 gives dr_dt = 0 for every s.  On
    the binary64 floats of the code the same holds whenever the growth
    factor rho*(1-(s+m*r)/K) is finite: a zero s then gives ds_dt == 0 when
    alpha*C is finite, and a zero r gives dr_dt == 0 when beta*s/K is
    finite. *)
Theorem axes_invariant :
  (forall t rho K m alpha C beta : R,
      K <> 0%R ->
      (forall r, exists dr_dt,
          model t (0%R, r) rho K m alpha C beta = ret (0%R, dr_dt)) /\
      (forall s, exists ds_dt,
          model t (s, 0%R) rho K m alpha C beta = ret (ds_dt, 0%R))) /\
  (forall t s r rho K m alpha C beta : float,
      (K =? 0)%float = false ->
      nonfinite (rho * (1 - (s + m * r) / K))%float = false ->
      exists ds_dt dr_dt,
        model t (s, r) rho K m alpha C beta = ret (ds_dt, dr_dt) /\
        ((s =? 0)%float = true -> nonfinite (alpha * C)%float = false ->
         (ds_dt =? 0)%float = true) /\
        ((r =? 0)%float = true -> nonfinite (beta * s / K)%float = false ->
         (dr_dt =? 0)%float = true)).
Proof.
  split.
  - intros t rho K m alpha C beta HK. apply axes_invariant_real. exact HK.
  - exact axes_invariant_binary64.
Qed.

Lemma axes_invariant_witness :
  (forall r, exists dr_dt,
      model 0%R (0%R, r) 1%R 2%R 3%R 1%R 1%R 1%R = ret (0%R, dr_dt)) /\
  exists ds_dt dr_dt,
    model 0%float (0%float, 5000%float) App.rho_s (float_of_Z App.k)
          (float_of_Z App.m) App.alpha 0.9%float App.beta = ret (ds_dt, dr_dt) /\
    (ds_dt =? 0)%float = true.
Proof.
  destruct axes_invariant as [Hreal Hfloat]. split.
  - apply (Hreal 0%R 1%R 2%R 3%R 1%R 1%R 1%R). lra.
  - destruct (Hfloat 0%float 0%float 5000%float App.rho_s (float_of_Z App.k)
                     (float_of_Z App.m) App.alpha 0.9%float App.beta)
      as [ds_dt [dr_dt [E [Hs _]]]]; [reflexivity | reflexivity |].
    exists ds_dt, dr_dt. split; [exact E | apply Hs; reflexivity].
Defined.

(** C10, as the specification states it, fails on floats when the product
    m*r overflows: K = 1 is nonzero and s = 0, all operands are finite, and
    the derivative of the zero population is a NaN, not 0. *)
Lemma axes_overflow_counterexample :
  (1 =? 0)%float = false /\
  nonfinite 1e308%float = false /\ nonfinite 10%float = false /\
  model 0%float (0%float, 10%float) 1%float 1%float 1e308%float 1%float
        1%float 1%float = ret (nan, neg_infinity) /\
  (nan =? 0)%float = false.
Proof. repeat split. Qed.

(** ** The script *)

(** An invariant of a loop: kept by every body that returns, it holds when
    the loop returns. *)
Lemma for_each_invariant {A S : Type} (body : S -> A -> result S)
    (P : S -> list A -> Prop) :
  (forall st a st' done, P st done -> body st a = ret st' ->
                         P st' (done ++ [a])%list) ->
  forall l st st' done,
    P st done -> for_each body l st = ret st' -> P st' (done ++ l)%list.
Proof.
  intros Hstep l. induction l as [| a l IH]; intros st st' done HP Hrun.
  - simpl in Hrun. apply ret_inj in Hrun. subst st'.
    rewrite app_nil_r. exact HP.
  - simpl in Hrun. destruct (body st a) as [e | st1] eqn:Hb; [discriminate |].
    simpl in Hrun.
    replace (done ++ a :: l)%list with ((done ++ [a]) ++ l)%list
      by (rewrite <- app_assoc; reflexivity).
    apply (IH st1); [| exact Hrun].
    apply (Hstep st a); assumption.
Qed.

Section ScriptFacts.
Variable solve_ivp : solver.
Variable C : float.

(** What an integration returns is taken as it is. *)
Lemma simulate_returns (s0 r0 : float) (sol : Ode.Result) (srow rrow : list float) :
  App.integrate solve_ivp C (s0, r0) = ret sol ->
  Ode.y sol = [srow; rrow] ->
  App.simulate solve_ivp C s0 r0 =
  ret {| App.solution := sol; App.t := Ode.t sol; App.s := srow; App.r := rrow;
         App.fig :=
           {| go.data :=
                [ {| go.x := Ode.t sol; go.y := srow; go.mode := "lines";
                     go.name := "S" |};
                  {| go.x := Ode.t sol; go.y := rrow; go.mode := "lines";
                     go.name := "R" |} ];
              go.annotations := [] |};
         App.fig_phase_plane := go.empty |}.
Proof.
  intros Hi Hy. unfold App.simulate. rewrite Hi. simpl. rewrite Hy.
  reflexivity.
Qed.

Lemma simulate_raises (s0 r0 : float) (e : exn) :
  App.integrate solve_ivp C (s0, r0) = raise e ->
  App.simulate solve_ivp C s0 r0 = raise e.
Proof. intros Hi. unfold App.simulate. rewrite Hi. reflexivity. Qed.

(** The step of the trajectory loop, when it returns. *)
Lemma trajectory_returns (v v' : App.Vars) (elt : num * num) :
  App.trajectory solve_ivp C v elt = ret v' ->
  exists sol srow rrow a b,
    App.integrate solve_ivp C (as_float (fst elt), as_float (snd elt)) = ret sol /\
    Ode.y sol = [srow; rrow] /\
    format_number (fst elt) = ret a /\
    format_number (snd elt) = ret b /\
    v' = {| App.solution := sol; App.t := App.t v; App.s := srow; App.r := rrow;
            App.fig := App.fig v;
            App.fig_phase_plane :=
              go.add_trace (App.fig_phase_plane v)
                {| go.x := srow; go.y := rrow; go.mode := "lines";
                   go.name := "S0=" ++ a ++ ", R0=" ++ b |} |}.
Proof.
  destruct elt as [S0 R0]. unfold App.trajectory. simpl fst. simpl snd.
  destruct (App.integrate solve_ivp C (as_float S0, as_float R0)) as [e | sol];
    [discriminate |].
  simpl. destruct (Ode.y sol) as [| srow [| rrow [| x rest]]] eqn:Hy;
    try discriminate.
  simpl. destruct (format_number S0) as [e | a]; [discriminate |].
  simpl. destruct (format_number R0) as [e | b]; [discriminate |].
  simpl. intros E. apply ret_inj in E. subst v'.
  exists sol, srow, rrow, a, b. repeat split; reflexivity || assumption.
Qed.

(** The step of the annotation loop, when it returns. *)
Lemma annotate_returns (v v' : App.Vars) (point : num * num) :
  App.annotate v point = ret v' ->
  exists a b,
    format_number (fst point) = ret a /\
    format_number (snd point) = ret b /\
    v' = {| App.solution := App.solution v; App.t := App.t v; App.s := App.s v;
            App.r := App.r v; App.fig := App.fig v;
            App.fig_phase_plane :=
              go.add_annotation (App.fig_phase_plane v)
                {| go.ax := fst point; go.ay := snd point;
                   go.text := "(" ++ a ++ "," ++ b ++ ")";
                   go.showarrow := true; go.arrowhead := 2 |} |}.
Proof.
  unfold App.annotate.
  destruct (format_number (fst point)) as [e | a]; [discriminate |].
  simpl. destruct (format_number (snd point)) as [e | b]; [discriminate |].
  simpl. intros E. apply ret_inj in E. subst v'.
  exists a, b. repeat split; reflexivity.
Qed.

(** The trajectory loop appends one trace per element of the list it is
    given, in the order of the list, and leaves the annotations alone. *)
Lemma trajectory_loop (init_cond : list (num * num)) (v v' : App.Vars) :
  for_each (App.trajectory solve_ivp C) init_cond v = ret v' ->
  exists added,
    go.data (App.fig_phase_plane v') =
      (go.data (App.fig_phase_plane v) ++ added)%list /\
    Forall2 (trace_of solve_ivp C) init_cond added /\
    go.annotations (App.fig_phase_plane v') = go.annotations (App.fig_phase_plane v).
Proof.
  intros Hrun.
  pose (P := fun (st : App.Vars) (done : list (num * num)) =>
               exists added,
                 go.data (App.fig_phase_plane st) =
                   (go.data (App.fig_phase_plane v) ++ added)%list /\
                 Forall2 (trace_of solve_ivp C) done added /\
                 go.annotations (App.fig_phase_plane st) =
                   go.annotations (App.fig_phase_plane v)).
  apply (for_each_invariant (App.trajectory solve_ivp C) P) with (done := [])
    in Hrun.
  - exact Hrun.
  - intros st a st' done [added [Hd [Hf Ha]]] Hstep.
    apply trajectory_returns in Hstep.
    destruct Hstep as [sol [srow [rrow [x [y [Hi [Hy [Hx [Hyy Hv]]]]]]]]].
    subst st'.
    exists (added ++ [ {| go.x := srow; go.y := rrow; go.mode := "lines";
                          go.name := "S0=" ++ x ++ ", R0=" ++ y |} ])%list.
    cbn [go.data go.annotations go.add_trace App.fig_phase_plane].
    split; [rewrite Hd, app_assoc; reflexivity |].
    split; [| exact Ha].
    apply Forall2_app; [exact Hf |].
    constructor; [| constructor].
    exists sol, x, y. simpl. repeat split; assumption.
  - exists []. rewrite app_nil_r. repeat split. constructor.
Qed.

(** The annotation loop appends one annotation per point, placed at the
    point itself, and leaves the traces alone. *)
Lemma annotate_loop (points : list (num * num)) (v v' : App.Vars) :
  for_each App.annotate points v = ret v' ->
  map (fun a => (go.ax a, go.ay a)) (go.annotations (App.fig_phase_plane v')) =
    (map (fun a => (go.ax a, go.ay a)) (go.annotations (App.fig_phase_plane v))
       ++ points)%list /\
  go.data (App.fig_phase_plane v') = go.data (App.fig_phase_plane v).
Proof.
  intros Hrun.
  pose (P := fun (st : App.Vars) (done : list (num * num)) =>
               map (fun a => (go.ax a, go.ay a))
                   (go.annotations (App.fig_phase_plane st)) =
                 (map (fun a => (go.ax a, go.ay a))
                      (go.annotations (App.fig_phase_plane v)) ++ done)%list /\
               go.data (App.fig_phase_plane st) = go.data (App.fig_phase_plane v)).
  apply (for_each_invariant App.annotate P) with (done := []) in Hrun.
  - exact Hrun.
  - intros st a st' done [Hm Hd] Hstep.
    apply annotate_returns in Hstep.
    destruct Hstep as [x [y [Hx [Hy Hv]]]]. subst st'. unfold P.
    cbn [go.data go.annotations go.add_annotation App.fig_phase_plane].
    split; [| exact Hd].
    rewrite map_app, Hm, <- app_assoc. simpl.
    destruct a; reflexivity.
  - split; [rewrite app_nil_r |]; reflexivity.
Qed.

(** The whole script, when it returns: the phase-plane figure holds the
    three annotations at the equilibrium points and one trace per element of
    [init_cond]. *)
Lemma script_returns (s0 r0 : float) (init_cond : list (num * num)) (v : App.Vars) :
  App.script solve_ivp C s0 r0 init_cond = ret v ->
  map (fun a => (go.ax a, go.ay a)) (go.annotations (App.fig_phase_plane v)) =
    App.equilibrium_points /\
  Forall2 (trace_of solve_ivp C) init_cond (go.data (App.fig_phase_plane v)).
Proof.
  unfold App.script, bind. intros Hrun.
  destruct (App.simulate solve_ivp C s0 r0) as [e | v0] eqn:Hs; [discriminate |].
  destruct (for_each App.annotate App.equilibrium_points v0) as [e | v1] eqn:Ha;
    [discriminate |].
  assert (H0 : App.fig_phase_plane v0 = go.empty).
  { unfold App.simulate in Hs.
    destruct (App.integrate solve_ivp C (s0, r0)) as [e | sol]; [discriminate |].
    simpl in Hs. destruct (unpack2 (Ode.y sol)) as [e | [srow rrow]];
      [discriminate |].
    simpl in Hs. apply ret_inj in Hs. subst v0. reflexivity. }
  apply annotate_loop in Ha. destruct Ha as [Hann Hdat].
  apply trajectory_loop in Hrun. destruct Hrun as [added [Hd [Hf Hk]]].
  rewrite H0 in Hann, Hdat. simpl in Hann, Hdat.
  split.
  - rewrite Hk. exact Hann.
  - rewrite Hd, Hdat. exact Hf.
Qed.
End ScriptFacts.

(** *** The solver's result is taken as it is returned *)

(** C4, as the code has it. The script never looks at the status or the
    success flag of what solve_ivp returns, and has no IntegrationFailure.
    Whenever solve_ivp returns a result whose y has its two rows, also one
    of a failed step whose arrays stop at the last time reached, the script
    takes its t and y as the trajectory, with no failure signal of its own.
    A returned result whose y has not the two rows (SciPy's result when no
    evaluation time was reached: t and y empty) makes the unpacking of line
    65 raise ValueError, and nothing else makes the simulation fail once
    solve_ivp has returned. *)
Theorem result_taken_as_returned (solve_ivp : solver) (C s0 r0 : float)
    (sol : Ode.Result) :
  App.integrate solve_ivp C (s0, r0) = ret sol ->
  (forall srow rrow,
      Ode.y sol = [srow; rrow] ->
      exists v,
        App.simulate solve_ivp C s0 r0 = ret v /\
        App.solution v = sol /\ App.t v = Ode.t sol /\
        App.s v = srow /\ App.r v = rrow) /\
  (List.length (Ode.y sol) <> 2%nat ->
   App.simulate solve_ivp C s0 r0 = raise ValueError) /\
  (forall e,
      App.simulate solve_ivp C s0 r0 = raise e ->
      e = ValueError /\ List.length (Ode.y sol) <> 2%nat).
Proof.
  intros Hi.
  assert (Hbad : List.length (Ode.y sol) <> 2%nat ->
                 App.simulate solve_ivp C s0 r0 = raise ValueError).
  { intros Hn. unfold App.simulate. rewrite Hi, bind_ret.
    destruct (Ode.y sol) as [| a [| b [| c rest]]]; try reflexivity.
    contradiction Hn. reflexivity. }
  split; [| split; [exact Hbad |]].
  - intros srow rrow Hy. eexists. split.
    + apply simulate_returns; eassumption.
    + repeat split.
  - intros e He.
    destruct (Nat.eq_dec (List.length (Ode.y sol)) 2) as [Htwo | Hn].
    + destruct (Ode.y sol) as [| a [| b [| c rest]]] eqn:Hy; try discriminate Htwo.
      rewrite (simulate_returns _ _ _ _ _ _ _ Hi Hy) in He. discriminate He.
    + rewrite (Hbad Hn) in He. unfold raise in He. injection He as He.
      split; [symmetry; exact He | exact Hn].
Qed.

Lemma result_taken_as_returned_witness :
  (exists sol srow rrow,
      App.integrate (gives_up 3) 0.9%float (1000000%float, 5000%float) = ret sol /\
      Ode.y sol = [srow; rrow] /\
      Ode.success sol = false /\
      exists v,
        App.simulate (gives_up 3) 0.9%float 1000000%float 5000%float = ret v /\
        App.solution v = sol /\ App.t v = Ode.t sol /\
        App.s v = srow /\ App.r v = rrow) /\
  (exists sol,
      App.integrate (fails_when (fun _ => true)) 0.9%float
                    (1000000%float, 5000%float) = ret sol /\
      Ode.y sol = [] /\
      Ode.success sol = false /\
      App.simulate (fails_when (fun _ => true)) 0.9%float 1000000%float
                   5000%float = raise ValueError).
Proof.
  split.
  - eexists. eexists. eexists.
    split; [lazy; reflexivity |].
    split; [reflexivity |].
    split; [reflexivity |].
    eapply (fun sol H =>
              proj1 (result_taken_as_returned (gives_up 3) 0.9%float
                       1000000%float 5000%float sol H));
      [lazy; reflexivity | reflexivity].
  - eexists.
    split; [reflexivity |].
    split; [reflexivity |].
    split; [reflexivity |].
    eapply (fun sol H =>
              proj1 (proj2 (result_taken_as_returned (fails_when (fun _ => true))
                              0.9%float 1000000%float 5000%float sol H)));
      [reflexivity | simpl; lia].
Defined.

(** C4, as the specification states it, fails on a solver whose budget ends
    after three of the 500 requested times: the script returns, holding a
    result that says success = False and a trajectory of three samples, and
    no failure is raised. *)
Lemma truncated_counterexample :
  exists v,
    App.simulate (gives_up 3) 0.9%float 1000000%float 5000%float = ret v /\
    Ode.success (App.solution v) = false /\
    Ode.status (App.solution v) = -1 /\
    List.length (App.t v) = 3%nat /\
    List.length (App.s v) = 3%nat /\
    List.length App.t_eval = 500%nat /\
    ~ (exists e,
          App.simulate (gives_up 3) 0.9%float 1000000%float 5000%float = raise e /\
          exn_name e = "IntegrationFailure").
Proof.
  eexists. split; [vm_compute; reflexivity |].
  repeat split.
  intros [e [_ Hn]]. destruct (exn_name_builtin e) as [_ Hf]. auto.
Qed.

(** *** One trace per element of the selection *)

(** C5, as the code has it. The loop over init_cond has list semantics: when
    the script returns, its phase-plane figure holds exactly one trace per
    element of the list, in the order of the list, each the trajectory
    integrated from that element and labelled by it; an initial condition
    that occurs twice is integrated and drawn twice. *)
Theorem one_trace_per_element (solve_ivp : solver) (C s0 r0 : float)
    (init_cond : list (num * num)) (v : App.Vars) :
  App.script solve_ivp C s0 r0 init_cond = ret v ->
  Forall2 (trace_of solve_ivp C) init_cond (go.data (App.fig_phase_plane v)) /\
  List.length (go.data (App.fig_phase_plane v)) = List.length init_cond.
Proof.
  intros Hrun. apply script_returns in Hrun. destruct Hrun as [_ Hf].
  split; [exact Hf |].
  symmetry. apply (Forall2_length Hf).
Qed.

Lemma one_trace_per_element_witness :
  exists v,
    App.script euler 0.9%float 1000000%float 5000%float
               [(Float 1e6, Float 1e5); (Float 1e6, Float 1e5)] = ret v /\
    Forall2 (trace_of euler 0.9%float)
            [(Float 1e6, Float 1e5); (Float 1e6, Float 1e5)]
            (go.data (App.fig_phase_plane v)) /\
    List.length (go.data (App.fig_phase_plane v)) = 2%nat.
Proof.
  eexists. split; [vm_compute; reflexivity |].
  apply (one_trace_per_element euler 0.9%float 1000000%float 5000%float
           [(Float 1e6, Float 1e5); (Float 1e6, Float 1e5)]).
  vm_compute. reflexivity.
Defined.

(** C5, as the specification states it, fails on the two duplicate initial
    conditions (1e6, 1e5) and (1e6, 1e5): the figure gets two traces, under
    the same label, not one. *)
Lemma duplicates_counterexample :
  exists v,
    App.script euler 0.9%float 1000000%float 5000%float
               [(Float 1e6, Float 1e5); (Float 1e6, Float 1e5)] = ret v /\
    map go.name (go.data (App.fig_phase_plane v)) =
      ["S0=1000.0k, R0=100.0k"; "S0=1000.0k, R0=100.0k"] /\
    List.length (go.data (App.fig_phase_plane v)) <> 1%nat.
Proof.
  eexists. split; [vm_compute; reflexivity |].
  split; [reflexivity | discriminate].
Qed.

(** *** The candidates of the multiselect *)

(** The five candidates are pairwise different, so a selection made through
    the multiselect, which offers each candidate once, repeats none. *)
Lemma default_init_cond_NoDup : NoDup App.default_init_cond.
Proof.
  unfold App.default_init_cond.
  repeat constructor; simpl; intros H;
    repeat (destruct H as [H | H]; [discriminate H |]); exact H.
Qed.

(** *** Labels of floats *)

(** Formatting a float never raises. *)
Lemma format_number_float (f : float) : exists label, format_number (Float f) = ret label.
Proof.
  unfold format_number. destruct (ge_int (Float f) 1000); eexists; reflexivity.
Qed.

(** ** The formatting helper *)

(** The binary length of a mantissa brackets it between two powers of 2. *)
Lemma digits2_bounds (m : positive) :
  2 ^ (Zpos (digits2_pos m) - 1) <= Zpos m < 2 ^ Zpos (digits2_pos m).
Proof.
  induction m as [p IH | p IH |]; simpl digits2_pos.
  - rewrite Pos2Z.inj_succ. change (Zpos p~1) with (2 * Zpos p + 1).
    replace (Z.succ (Zpos (digits2_pos p)) - 1)
      with (Z.succ (Zpos (digits2_pos p) - 1)) by lia.
    pose proof (Pos2Z.is_pos (digits2_pos p)) as Hd.
    rewrite 2!Z.pow_succ_r; lia.
  - rewrite Pos2Z.inj_succ. change (Zpos p~0) with (2 * Zpos p).
    replace (Z.succ (Zpos (digits2_pos p)) - 1)
      with (Z.succ (Zpos (digits2_pos p) - 1)) by lia.
    pose proof (Pos2Z.is_pos (digits2_pos p)) as Hd.
    rewrite 2!Z.pow_succ_r; lia.
  - simpl. lia.
Qed.

(** A finite float has at most 53 significant bits, and exactly 53 above the
    least exponent. *)
Lemma valid_mantissa (s : bool) (m : positive) (e : Z) :
  valid_binary (S754_finite s m e) = true ->
  Zpos m < 2 ^ 53 /\ (-1074 < e -> 2 ^ 52 <= Zpos m).
Proof.
  unfold SpecFloat.valid_binary, bounded, canonical_mantissa, fexp.
  intros H. apply andb_prop in H as [Hc _]. apply Z.eqb_eq in Hc.
  unfold fexp, SpecFloat.emin in Hc.
  change prec with 53 in Hc. change emax with 1024 in Hc.
  pose proof (digits2_bounds m) as [Hlo Hhi].
  assert (Hd : Zpos (digits2_pos m) <= 53) by lia.
  split.
  - apply Z.lt_le_trans with (1 := Hhi). apply Z.pow_le_mono_r; lia.
  - intros He. assert (Zpos (digits2_pos m) = 53) by lia.
    replace 52 with (Zpos (digits2_pos m) - 1) by lia. exact Hlo.
Qed.

(** Against 1000, the exact comparison is the comparison of floats. *)
Lemma float_ge_1000 (f : float) : float_ge_Z f 1000 = (1000 <=? f)%float.
Proof.
  rewrite leb_spec. unfold float_ge_Z.
  change (Prim2SF 1000%float) with (S754_finite false 8796093022208000 (-43)).
  pose proof (Prim2SF_valid f) as Hv.
  destruct (Prim2SF f) as [sf | sf | | sf m e]; try reflexivity.
  - destruct sf; reflexivity.
  - apply valid_mantissa in Hv. destruct Hv as [Hhi Hlo].
    destruct sf.
    + unfold SFleb, SFcompare. apply Z.leb_gt.
      assert (0 < 2 ^ Z.max (- e) 0) by (apply Z.pow_pos_nonneg; lia).
      assert (0 < 2 ^ Z.max e 0) by (apply Z.pow_pos_nonneg; lia).
      nia.
    + unfold SFleb, SFcompare.
      destruct (Z.compare_spec (-43) e) as [He | He | He].
      * subst e. change (1000 * 2 ^ Z.max (- -43) 0) with 8796093022208000.
        change (2 ^ Z.max (-43) 0) with 1. rewrite Z.mul_1_r.
        unfold Z.leb. simpl Z.compare. unfold Pos.compare.
        destruct (Pos.compare_cont Eq 8796093022208000 m); reflexivity.
      * apply Z.leb_le. specialize (Hlo ltac:(lia)).
        destruct (Z.le_gt_cases 0 e) as [Hp | Hn].
        -- rewrite (Z.max_r (- e) 0), (Z.max_l e 0) by lia.
           assert (0 < 2 ^ e) by (apply Z.pow_pos_nonneg; lia).
           change (2 ^ 0) with 1. change (2 ^ 52) with 4503599627370496 in Hlo. nia.
        -- rewrite (Z.max_l (- e) 0), (Z.max_r e 0) by lia.
           assert (2 ^ (- e) <= 2 ^ 42) by (apply Z.pow_le_mono_r; lia).
           change (2 ^ 0) with 1. change (2 ^ 52) with 4503599627370496 in Hlo.
           change (2 ^ 42) with 4398046511104 in *. lia.
      * apply Z.leb_gt.
        rewrite (Z.max_l (- e) 0), (Z.max_r e 0) by lia.
        assert (2 ^ 44 <= 2 ^ (- e)) by (apply Z.pow_le_mono_r; lia).
        change (2 ^ 0) with 1. change (2 ^ 53) with 9007199254740992 in Hhi.
        change (2 ^ 44) with 17592186044416 in *. lia.
Qed.

Lemma ge_int_float_1000 (f : float) : ge_int (Float f) 1000 = (1000 <=? f)%float.
Proof. apply float_ge_1000. Qed.

(** An int of at least 1000 whose quotient fits a float. *)
Lemma format_number_int_large (z : Z) :
  1000 <= z -> is_infinity (int_quot z 1000) = false ->
  format_number (Int z) = ret (format_1f (int_quot z 1000) ++ "k").
Proof.
  intros Hz Hq. unfold format_number. simpl ge_int.
  apply Z.leb_le in Hz. rewrite Hz.
  unfold truediv_int, int_truediv. simpl (1000 =? 0). cbv iota.
  rewrite Hq. reflexivity.
Qed.

(** An int whose quotient is beyond the floats: the division raises. *)
Lemma format_number_int_overflow (z : Z) :
  1000 <= z -> is_infinity (int_quot z 1000) = true ->
  format_number (Int z) = raise OverflowError.
Proof.
  intros Hz Hq. unfold format_number. simpl ge_int.
  apply Z.leb_le in Hz. rewrite Hz.
  unfold truediv_int, int_truediv. simpl (1000 =? 0). cbv iota.
  rewrite Hq. reflexivity.
Qed.

(** *** The digits of an int *)

Lemma length_string_of_uint (u : Decimal.uint) :
  String.length (NilEmpty.string_of_uint u) = N.to_nat (Unsigned.usize u).
Proof.
  induction u; simpl; rewrite ?N2Nat.inj_succ, ?IHu; reflexivity.
Qed.

Lemma of_lu_lt (d : Decimal.uint) :
  (Unsigned.of_lu d < 10 ^ Unsigned.usize d)%N.
Proof.
  induction d; [reflexivity | ..];
    cbn [Unsigned.of_lu Unsigned.usize]; rewrite N.pow_succ_r'; lia.
Qed.

Lemma usize_revapp (d d' : Decimal.uint) :
  Unsigned.usize (Decimal.revapp d d') = (Unsigned.usize d + Unsigned.usize d')%N.
Proof.
  revert d'. induction d; intros d'; simpl; rewrite ?IHd; simpl; lia.
Qed.

Lemma usize_rev (d : Decimal.uint) :
  Unsigned.usize (Decimal.rev d) = Unsigned.usize d.
Proof. unfold Decimal.rev. rewrite usize_revapp. simpl. lia. Qed.

Lemma pos_lt_pow (p : positive) :
  (Npos p < 10 ^ Unsigned.usize (Pos.to_uint p))%N.
Proof.
  rewrite <- (Unsigned.of_to p) at 1. rewrite Unsigned.of_uint_alt.
  rewrite <- (usize_rev (Pos.to_uint p)). apply of_lu_lt.
Qed.

Lemma to_uint_unorm (p : positive) :
  Decimal.unorm (Pos.to_uint p) = Pos.to_uint p.
Proof.
  rewrite <- (Unsigned.to_of (Pos.to_uint p)), Unsigned.of_to. reflexivity.
Qed.

Lemma pos_ge_pow (p : positive) :
  (10 ^ (Unsigned.usize (Pos.to_uint p) - 1) <= Npos p)%N.
Proof.
  pose proof (to_uint_unorm p) as Hn.
  pose proof (Unsigned.to_uint_nonzero p) as Hz.
  pose proof (Unsigned.of_to p) as Hv.
  destruct (Pos.to_uint p) as [| u | u | u | u | u | u | u | u | u | u ] eqn:E;
    try (simpl Unsigned.usize; rewrite N.sub_1_r, N.pred_succ;
         rewrite <- Hv; simpl Pos.of_uint; rewrite Unsigned.of_uint_acc_rev; lia).
  - simpl. lia.
  - exfalso. unfold Decimal.unorm in Hn. simpl Decimal.nzhead in Hn.
    pose proof (DecimalFacts.nb_digits_nzhead u) as Hle.
    destruct (Decimal.nzhead u) eqn:Hu;
      [apply Hz; symmetry; exact Hn | ..];
      rewrite Hn in Hle; simpl in Hle; lia.
Qed.

Lemma int_digits_pos (p : positive) :
  int_digits (Zpos p) = Z.of_N (Unsigned.usize (Pos.to_uint p)).
Proof.
  unfold int_digits, str_int. simpl Z.abs. simpl Z.to_int.
  unfold NilZero.string_of_int, NilZero.string_of_uint.
  pose proof (Unsigned.to_uint_nonnil p) as Hn.
  destruct (Pos.to_uint p) eqn:E; [contradiction Hn; reflexivity | ..];
    rewrite length_string_of_uint; apply N_nat_Z.
Qed.

(** An int has at most [d] decimal digits exactly when its absolute value
    is below [10 ^ d]. *)
Lemma int_digits_le (z d : Z) :
  0 < d -> (int_digits z <= d <-> Z.abs z < 10 ^ d).
Proof.
  intros Hd.
  assert (Hpos : forall p, int_digits (Zpos p) <= d <-> Zpos p < 10 ^ d).
  { intros p. rewrite int_digits_pos.
    pose proof (pos_lt_pow p) as Hlt. pose proof (pos_ge_pow p) as Hge.
    set (n := Unsigned.usize (Pos.to_uint p)) in *.
    apply N2Z.inj_lt in Hlt. apply N2Z.inj_le in Hge.
    rewrite N2Z.inj_pow in Hlt, Hge. rewrite N2Z.inj_sub in Hge.
    2:{ unfold n. pose proof (Unsigned.to_uint_nonnil p) as Hn.
        destruct (Pos.to_uint p); [contradiction Hn; reflexivity | ..];
          simpl; lia. }
    change (Z.of_N 10) with 10 in *. change (Z.of_N 1) with 1 in *.
    change (Z.of_N (N.pos p)) with (Z.pos p) in *.
    split; intros H.
    - eapply Z.lt_le_trans; [exact Hlt |]. apply Z.pow_le_mono_r; lia.
    - destruct (Z.le_gt_cases (Z.of_N n) d) as [Hle | Hgt]; [exact Hle |].
      exfalso.
      assert (10 ^ d <= 10 ^ (Z.of_N n - 1)) by (apply Z.pow_le_mono_r; lia).
      lia. }
  destruct z as [| p | p].
  - change (int_digits 0) with 1. simpl Z.abs.
    split; intros _; [apply Z.pow_pos_nonneg; lia | lia].
  - apply Hpos.
  - unfold int_digits. simpl Z.abs. apply Hpos.
Qed.

Lemma pow10_limit : 1000 <= 10 ^ int_max_str_digits.
Proof.
  change 1000 with (10 ^ 3). apply Z.pow_le_mono_r; unfold int_max_str_digits; lia.
Qed.

(** [str] of an int: it returns below [10 ** 4300] in absolute value, and
    raises from there on. *)
Lemma str_of_int_ok (z : Z) :
  Z.abs z < 10 ^ int_max_str_digits -> str_of_int z = ret (str_int z).
Proof.
  intros Hz. unfold str_of_int.
  apply (int_digits_le z int_max_str_digits) in Hz; [| reflexivity].
  apply Z.ltb_ge in Hz. rewrite Hz. reflexivity.
Qed.

Lemma str_of_int_raises (z : Z) :
  10 ^ int_max_str_digits <= Z.abs z -> str_of_int z = raise ValueError.
Proof.
  intros Hz. unfold str_of_int.
  destruct (int_max_str_digits <? int_digits z) eqn:E; [reflexivity |].
  apply Z.ltb_ge in E.
  apply (int_digits_le z int_max_str_digits) in E; [lia | reflexivity].
Qed.

(** An int below 1000 that [str] accepts. *)
Lemma format_number_int_small (z : Z) :
  - 10 ^ int_max_str_digits < z -> z < 1000 ->
  format_number (Int z) = ret (str_int z).
Proof.
  intros Hlo Hz. unfold format_number. simpl ge_int.
  pose proof pow10_limit as Hl.
  apply Z.leb_gt in Hz as Hb. rewrite Hb.
  apply str_of_int_ok. lia.
Qed.

(** An int of more than 4300 digits below 1000: [str] raises. *)
Lemma format_number_int_digits (z : Z) :
  z <= - 10 ^ int_max_str_digits -> format_number (Int z) = raise ValueError.
Proof.
  intros Hz. unfold format_number. simpl ge_int.
  pose proof pow10_limit as Hl.
  assert (Hb : (1000 <=? z) = false) by (apply Z.leb_gt; lia). rewrite Hb.
  apply str_of_int_raises. lia.
Qed.

Lemma format_number_float_large (f : float) :
  (1000 <=? f)%float = true ->
  format_number (Float f) = ret (format_1f (f / 1000) ++ "k").
Proof.
  intros Hf. unfold format_number. rewrite ge_int_float_1000, Hf. reflexivity.
Qed.

Lemma format_number_float_small (f : float) :
  (1000 <=? f)%float = false ->
  format_number (Float f) = ret (float_repr f).
Proof.
  intros Hf. unfold format_number. rewrite ge_int_float_1000, Hf. reflexivity.
Qed.

(** C7, as the code has it. The helper maps every float of at least 1000,
    and every int of at least 1000 whose quotient by 1000 fits a float, to
    the quotient rounded to one decimal followed by k, and every smaller
    value (a NaN too) to its plain string, an int of more than 4300 decimal
    digits excepted: for an int of at most -10**4300 str raises ValueError,
    as the division raises OverflowError for an int whose quotient by 1000
    is beyond the floats.  format(999) is 999, format(1000) is 1.0k and
    format(4800000) is 4800.0k.  It returns a string only: the annotations
    that carry its labels stand at the equilibrium points themselves. *)
Theorem format_number_spec :
  format_number (Int 999) = ret "999" /\
  format_number (Int 1000) = ret "1.0k" /\
  format_number (Int 4800000) = ret "4800.0k" /\
  (forall z : Z, 1000 <= z -> is_infinity (int_quot z 1000) = false ->
                 format_number (Int z) = ret (format_1f (int_quot z 1000) ++ "k")) /\
  (forall z : Z, 1000 <= z -> is_infinity (int_quot z 1000) = true ->
                 format_number (Int z) = raise OverflowError) /\
  (forall f : float, (1000 <=? f)%float = true ->
                     format_number (Float f) = ret (format_1f (f / 1000) ++ "k")) /\
  (forall z : Z, - 10 ^ int_max_str_digits < z -> z < 1000 ->
                 format_number (Int z) = ret (str_int z)) /\
  (forall z : Z, z <= - 10 ^ int_max_str_digits ->
                 format_number (Int z) = raise ValueError) /\
  (forall f : float, (1000 <=? f)%float = false ->
                     format_number (Float f) = ret (float_repr f)) /\
  (forall (solve_ivp : solver) (C s0 r0 : float) (init_cond : list (num * num))
          (v : App.Vars),
      App.script solve_ivp C s0 r0 init_cond = ret v ->
      map (fun a => (go.ax a, go.ay a)) (go.annotations (App.fig_phase_plane v))
      = App.equilibrium_points).
Proof.
  split; [reflexivity |].
  split; [reflexivity |].
  split; [reflexivity |].
  split; [exact format_number_int_large |].
  split; [exact format_number_int_overflow |].
  split; [exact format_number_float_large |].
  split; [exact format_number_int_small |].
  split; [exact format_number_int_digits |].
  split; [exact format_number_float_small |].
  intros solve_ivp C s0 r0 init_cond v Hrun.
  apply script_returns in Hrun. apply Hrun.
Qed.

Lemma format_number_spec_witness :
  format_number (Int 2500) = ret "2.5k" /\
  format_number (Float 1234.5) = ret "1.2k" /\
  format_number (Int (-7)) = ret "-7" /\
  format_number (Int (- 10 ^ 4300)) = raise ValueError /\
  format_number (Float 999.5) = ret "999.5".
Proof.
  destruct format_number_spec as [_ [_ [_ [Hi [_ [Hf [Hs [Hd [Hr _]]]]]]]]].
  split; [apply (Hi 2500); [lia | reflexivity] |].
  split; [apply (Hf 1234.5%float); reflexivity |].
  split; [apply (Hs (-7)); [pose proof pow10_limit; lia | lia] |].
  split; [apply (Hd (- 10 ^ 4300)); apply Z.le_refl |].
  apply (Hr 999.5%float). reflexivity.
Defined.

(** C7, as the specification states it, fails on an int beyond the range of
    the floats, and on an int beyond the digits that str accepts: 10**312
    is at least 1000, and the helper raises OverflowError instead of
    returning a string; -10**4300 is smaller than 1000, and the helper
    raises ValueError instead of returning its plain string. *)
Lemma format_number_counterexample :
  ge_int (Int (10 ^ 312)) 1000 = true /\
  format_number (Int (10 ^ 312)) = raise OverflowError /\
  ge_int (Int (- 10 ^ 4300)) 1000 = false /\
  format_number (Int (- 10 ^ 4300)) = raise ValueError.
Proof.
  split; [vm_compute; reflexivity |].
  split; [vm_compute; reflexivity |].
  split; [reflexivity |].
  apply format_number_int_digits. apply Z.le_refl.
Qed.

(** The labels that the script puts on its three equilibrium points. *)
Lemma equilibrium_labels :
  map (fun p => (format_number (fst p), format_number (snd p)))
      App.equilibrium_points
  = [ (ret "0", ret "160.0k"); (ret "4800.0k", ret "0"); (ret "0", ret "0") ].
Proof. vm_compute. reflexivity. Qed.

(** ** The strings and quotients of Python, on known values *)

Lemma float_repr_examples :
  map float_repr
      [ 0.1; 1e22; 1e16; 1e15; 0.0001; 0.00001; 123.456; 5e-324; 999.5;
        160000; 0.30000000000000004; 1.7976931348623157e308 ]%float
  = [ "0.1"; "1e+22"; "1e+16"; "1000000000000000.0"; "0.0001"; "1e-05";
      "123.456"; "5e-324"; "999.5"; "160000.0"; "0.30000000000000004";
      "1.7976931348623157e+308" ].
Proof. vm_compute. reflexivity. Qed.

Lemma format_1f_examples :
  map format_1f [ 1; 4800; 0.25; 0.35; 159.9; 0.95; 1.05; infinity; nan ]%float
  = [ "1.0"; "4800.0"; "0.2"; "0.3"; "159.9"; "0.9"; "1.1"; "inf"; "nan" ].
Proof. vm_compute. reflexivity. Qed.

Lemma int_truediv_examples :
  int_truediv 1 3 = ret 0.3333333333333333%float /\
  int_truediv 1050 1000 = ret 1.05%float /\
  int_truediv (2 ^ 53 + 1) 3 = ret 3002399751580331%float /\
  int_truediv (-7) 2 = ret (-3.5)%float /\
  int_truediv 1 0 = raise ZeroDivisionError /\
  int_truediv (10 ^ 312) 1000 = raise OverflowError /\
  float_of_int (2 ^ 53 + 1) = ret 9007199254740992%float /\
  float_of_int (10 ^ 400) = raise OverflowError.
Proof. repeat split; vm_compute; reflexivity. Qed.

(** ** The time grid *)

Lemma length_removelast_pred {A : Type} (l : list A) :
  List.length (removelast l) = (List.length l - 1)%nat.
Proof.
  induction l as [| a l IH]; [reflexivity |].
  destruct l as [| b l]; [reflexivity |].
  change (removelast (a :: b :: l)) with (a :: removelast (b :: l)).
  cbn [List.length] in IH |- *. rewrite IH. lia.
Qed.

Lemma length_set_last {A : Type} (l : list A) (v : A) :
  List.length (set_last l v) = List.length l.
Proof.
  destruct l as [| a l]; [reflexivity |].
  unfold set_last. rewrite length_app, length_removelast_pred.
  cbn [List.length]. lia.
Qed.

(** [np.linspace] returns as many samples as it is asked for, whatever the
    ends of the interval. *)
Lemma linspace_length (start stop : float) (num : nat) :
  List.length (linspace start stop num) = num.
Proof.
  unfold linspace.
  destruct (1 <? num)%nat; [rewrite length_set_last |]; rewrite length_map;
    destruct (0 <? num - 1)%nat;
    [ destruct (_ =? 0)%float | | destruct (_ =? 0)%float | ];
    rewrite !length_map; apply length_seq.
Qed.

(** With at least two samples the last one is the end of the interval
    itself. *)
Lemma linspace_last (start stop : float) (num : nat) :
  (2 <= num)%nat -> nth (num - 1) (linspace start stop num) 0%float = stop.
Proof.
  intros Hn. unfold linspace.
  assert (H1 : (1 <? num)%nat = true) by (apply Nat.ltb_lt; lia).
  rewrite H1.
  set (y := map _ _).
  assert (Hy : List.length y = num).
  { unfold y. rewrite length_map.
    destruct (0 <? num - 1)%nat; [destruct (_ =? 0)%float | ];
      rewrite !length_map; apply length_seq. }
  destruct y as [| a y']; [simpl in Hy; lia |].
  unfold set_last.
  assert (Hr : List.length (removelast (a :: y')) = (num - 1)%nat)
    by (rewrite length_removelast_pred, Hy; reflexivity).
  rewrite app_nth2 by lia. rewrite Hr, Nat.sub_diag. reflexivity.
Qed.

Lemma forallb_seq (p : nat -> bool) (n : nat) :
  forallb p (seq 0 n) = true -> forall i, (i < n)%nat -> p i = true.
Proof.
  intros H i Hi. rewrite forallb_forall in H. apply H. apply in_seq. lia.
Qed.

Lemma pairwise_lt_sound (l : list float) :
  pairwise_lt l = true -> strictly_increasing l.
Proof.
  induction l as [| a l IH]; intros H i j [Hij Hj].
  - simpl in Hj. lia.
  - simpl in H. apply andb_prop in H as [Ha Hl]. simpl in Hj.
    destruct j as [| j]; [lia |]. destruct i as [| i].
    + simpl. rewrite forallb_forall in Ha. apply Ha. apply nth_In. lia.
    + simpl. apply IH; [exact Hl | lia].
Qed.

(** The grid of the script: 500 times from 0 to 700, the multiples of the
    step 700/499 and then 700 itself, in strictly increasing order. *)
Lemma t_eval_grid :
  List.length App.t_eval = 500%nat /\
  (forall i, (i < 499)%nat ->
             nth i App.t_eval 0%float = (float_of_nat i * (700 / 499))%float) /\
  nth 499 App.t_eval 0%float = 700%float /\
  strictly_increasing App.t_eval.
Proof.
  split; [vm_compute; reflexivity |].
  split.
  - intros i Hi.
    apply FloatAxioms.Leibniz.eqb_spec.
    revert i Hi.
    apply (forallb_seq
             (fun i => PrimFloat.Leibniz.eqb (nth i App.t_eval 0%float)
                         (float_of_nat i * (700 / 499))%float) 499).
    vm_compute. reflexivity.
  - split; [apply (linspace_last _ _ 500); lia |].
    apply pairwise_lt_sound. vm_compute. reflexivity.
Qed.

(** What [simulate] returned, read backwards. *)
Lemma simulate_inv (solve_ivp : solver) (C s0 r0 : float) (v : App.Vars) :
  App.simulate solve_ivp C s0 r0 = ret v ->
  App.integrate solve_ivp C (s0, r0) = ret (App.solution v) /\
  Ode.y (App.solution v) = [App.s v; App.r v] /\
  App.t v = Ode.t (App.solution v).
Proof.
  unfold App.simulate.
  destruct (App.integrate solve_ivp C (s0, r0)) as [e | sol]; [discriminate |].
  simpl. destruct (Ode.y sol) as [| srow [| rrow [| x rest]]] eqn:Hy;
    try discriminate.
  simpl. intros E. apply ret_inj in E. subst v. simpl.
  repeat split. exact Hy.
Qed.

(** The Euler stand-in returns one value per requested time. *)
Lemma euler_steps_length (f : rhs) (ts : list float) :
  forall t y rows,
    euler_steps f t y ts = ret rows ->
    List.length (fst rows) = List.length ts /\
    List.length (snd rows) = List.length ts.
Proof.
  induction ts as [| t' ts IH]; intros t y rows Hrun.
  - simpl in Hrun. apply ret_inj in Hrun. subst rows. split; reflexivity.
  - simpl in Hrun.
    destruct (f (F64 t) (F64 (fst y), F64 (snd y))) as [e | d]; [discriminate |].
    simpl in Hrun.
    destruct (euler_steps f t' _ ts) as [e | rest] eqn:Hrest; [discriminate |].
    simpl in Hrun. apply ret_inj in Hrun. subst rows. simpl.
    apply IH in Hrest. destruct Hrest as [H1 H2]. split; congruence.
Qed.

Lemma euler_contract : scipy_contract euler.
Proof.
  intros f span y0 t_eval sol Hrun. unfold euler in Hrun.
  destruct (euler_steps f (fst span) y0 t_eval) as [e | rows] eqn:Hrows;
    [discriminate |].
  simpl in Hrun. apply ret_inj in Hrun. subst sol. simpl.
  apply euler_steps_length in Hrows. destruct Hrows as [H1 H2].
  split; [| reflexivity].
  right. split; [reflexivity |].
  repeat constructor; assumption.
Qed.

(** What the trajectory step returned, read backwards. *)
Lemma trajectory_inv (solve_ivp : solver) (C : float) (v v' : App.Vars)
    (elt : num * num) :
  App.trajectory solve_ivp C v elt = ret v' ->
  App.integrate solve_ivp C (as_float (fst elt), as_float (snd elt))
    = ret (App.solution v') /\
  Ode.y (App.solution v') = [App.s v'; App.r v'].
Proof.
  intros Hrun. apply trajectory_returns in Hrun.
  destruct Hrun as [sol [srow [rrow [a [b [Hi [Hy [_ [_ Hv]]]]]]]]].
  subst v'. simpl. split; assumption.
Qed.

Lemma two_rows (srow rrow : list float) (n : nat) :
  Forall (fun row => List.length row = n) [srow; rrow] ->
  List.length srow = n /\ List.length rrow = n.
Proof.
  intros H. apply Forall_cons_iff in H. destruct H as [Hs H].
  apply Forall_cons_iff in H. destruct H as [Hr _]. split; assumption.
Qed.

(** Under the contract, two rows that the script unpacked are as long as
    the reported times. *)
Lemma contract_rows (solve_ivp : solver) (C : float) (y0 : float * float)
    (sol : Ode.Result) (srow rrow : list float) :
  scipy_contract solve_ivp ->
  App.integrate solve_ivp C y0 = ret sol ->
  Ode.y sol = [srow; rrow] ->
  List.length srow = List.length (Ode.t sol) /\
  List.length rrow = List.length (Ode.t sol).
Proof.
  intros Hc Hi Hy. unfold App.integrate in Hi. apply Hc in Hi.
  destruct Hi as [[[_ Hnil] | [_ Hrows]] _].
  - rewrite Hy in Hnil. discriminate Hnil.
  - rewrite Hy in Hrows. apply two_rows. exact Hrows.
Qed.

(** A successful integration of the script reports the grid of the script:
    the grid is not empty, so the result has its two rows, each as long as
    the grid. *)
Lemma integrate_on_grid (solve_ivp : solver) (C : float) (y0 : float * float)
    (sol : Ode.Result) :
  scipy_contract solve_ivp ->
  App.integrate solve_ivp C y0 = ret sol ->
  Ode.success sol = true ->
  Ode.t sol = App.t_eval /\
  exists srow rrow,
    Ode.y sol = [srow; rrow] /\
    List.length srow = 500%nat /\ List.length rrow = 500%nat.
Proof.
  intros Hc Hi Hok. unfold App.integrate in Hi. apply Hc in Hi.
  destruct Hi as [Hshape Hgrid]. specialize (Hgrid Hok).
  split; [exact Hgrid |].
  destruct t_eval_grid as [Hlen _].
  destruct Hshape as [[Ht _] | [Htwo Hrows]].
  - rewrite Ht in Hgrid. rewrite <- Hgrid in Hlen. discriminate Hlen.
  - rewrite Hgrid, Hlen in Hrows.
    destruct (Ode.y sol) as [| srow [| rrow [| x rest]]]; try discriminate Htwo.
    exists srow, rrow. split; [reflexivity |]. apply two_rows. exact Hrows.
Qed.



(** The Euler stand-in at the defaults of the script: it succeeds, and its
    trajectory has the 500 samples. *)
Lemma euler_run :
  exists v,
    App.simulate euler 0.9%float 1000000%float 5000%float = ret v /\
    Ode.success (App.solution v) = true /\
    List.length (App.t v) = 500%nat /\
    List.length (App.s v) = 500%nat /\
    List.length (App.r v) = 500%nat.
Proof.
  eexists. split; [vm_compute; reflexivity |]. repeat split.
Qed.

(** * Part III: further properties of the code *)

(** ** The vector field: failures and carriers *)

Section ModelFailure.
Context {T : Type} `{Number T}.

(** On a carrier of the interface, [model] raises exactly when the division
    by K traps. *)
Lemma model_raises_inv (t : T) (y : T * T) (rho K m alpha C beta : T)
    (e : exn) :
  model t y rho K m alpha C beta = raise e <->
  traps K = true /\ e = ZeroDivisionError.
Proof.
  destruct y as [s r]. destruct (traps K) eqn:HK.
  - rewrite model_raises by exact HK. split.
    + intros E. injection E as E. split; [reflexivity | symmetry; exact E].
    + intros [_ E]. rewrite E. reflexivity.
  - rewrite model_no_trap by exact HK. split.
    + discriminate.
    + intros [E _]. discriminate E.
Qed.
End ModelFailure.

(** *** Python's mixed arithmetic *)

Lemma bind_raise_inv {A B : Type} (c : result A) (k : A -> result B) (e : exn) :
  bind c k = raise e -> c = raise e \/ exists a, c = ret a /\ k a = raise e.
Proof.
  destruct c as [e' | a]; simpl; intros E.
  - left. injection E as E. subst e'. reflexivity.
  - right. exists a. split; [reflexivity | exact E].
Qed.

Lemma to_float_raises (x : num) (e : exn) :
  Py.to_float x = raise e -> e = OverflowError.
Proof.
  destruct x as [z | f]; simpl; [| discriminate].
  unfold float_of_int. destruct (is_infinity (float_of_Z z)); [| discriminate].
  intros E. injection E as E. symmetry. exact E.
Qed.

(** An addition, a subtraction or a product raises nothing but
    OverflowError. *)
Lemma arith_raises (on_int : Z -> Z -> Z) (on_float : float -> float -> float)
    (x y : num) (e : exn) :
  Py.arith on_int on_float x y = raise e -> e = OverflowError.
Proof.
  assert (Hgen : (a <- Py.to_float x ;; b <- Py.to_float y ;;
                  ret (Float (on_float a b))) = raise e -> e = OverflowError).
  { intros E. apply bind_raise_inv in E.
    destruct E as [E | [a [_ E]]]; [exact (to_float_raises _ _ E) |].
    apply bind_raise_inv in E.
    destruct E as [E | [b [_ E]]]; [exact (to_float_raises _ _ E) |].
    discriminate E. }
  destruct x as [a | a], y as [b | b]; try exact Hgen.
  discriminate.
Qed.

(** A division raises OverflowError, or ZeroDivisionError on a divisor
    that, as a float, is zero. *)
Lemma div_raises (x y : num) (e : exn) :
  Py.div x y = raise e ->
  e = OverflowError \/
  (e = ZeroDivisionError /\
   exists f, Py.to_float y = ret f /\ (f =? 0)%float = true).
Proof.
  assert (Hgen : (a <- Py.to_float x ;; b <- Py.to_float y ;;
                  q <- truediv a b ;; ret (Float q)) = raise e ->
                 e = OverflowError \/
                 (e = ZeroDivisionError /\
                  exists f, Py.to_float y = ret f /\ (f =? 0)%float = true)).
  { intros E. apply bind_raise_inv in E.
    destruct E as [E | [a [_ E]]]; [left; exact (to_float_raises _ _ E) |].
    apply bind_raise_inv in E.
    destruct E as [E | [b [Hb E]]]; [left; exact (to_float_raises _ _ E) |].
    apply bind_raise_inv in E.
    destruct E as [E | [q [_ E]]]; [| discriminate E].
    unfold truediv in E. cbn [traps float_number] in E.
    destruct (b =? 0)%float eqn:Hb0; [| discriminate E].
    right. injection E as E. split; [symmetry; exact E |].
    exists b. split; assumption. }
  destruct x as [a | a], y as [b | b]; try exact Hgen.
  unfold Py.div, int_truediv. destruct (Z.eqb_spec b 0) as [Hb | Hb].
  - intros E. injection E as E. right. split; [symmetry; exact E |].
    subst b. exists 0%float. split; reflexivity.
  - destruct (is_infinity (int_quot a b)); [| discriminate].
    intros E. injection E as E. left. symmetry. exact E.
Qed.

(** A division by a zero never returns. *)
Lemma div_by_zero (x y : num) :
  Py.is_zero y = true -> exists e, Py.div x y = raise e.
Proof.
  intros Hy. destruct x as [a | a], y as [b | b]; simpl in Hy.
  - apply Z.eqb_eq in Hy. subst b. exists ZeroDivisionError.
    unfold Py.div, int_truediv. reflexivity.
  - unfold Py.div. destruct (Py.to_float (Int a)) as [e | fa]; [exists e; reflexivity |].
    exists ZeroDivisionError. cbn [bind Py.to_float ret]. unfold truediv.
    cbn [traps float_number]. rewrite Hy. reflexivity.
  - apply Z.eqb_eq in Hy. subst b. exists ZeroDivisionError. reflexivity.
  - exists ZeroDivisionError. unfold Py.div. cbn [bind Py.to_float ret].
    unfold truediv. cbn [traps float_number]. rewrite Hy. reflexivity.
Qed.

Ltac raise_inv E :=
  cbv beta in E;
  lazymatch type of E with
  | bind _ _ = raise _ =>
      apply bind_raise_inv in E;
      let a := fresh "a" in
      destruct E as [E | [a [_ E]]]; [raise_inv E | raise_inv E]
  | Py.arith _ _ _ _ = raise _ => left; exact (arith_raises _ _ _ _ _ E)
  | Py.div _ _ = raise _ => exact (div_raises _ _ _ E)
  | ret _ = raise _ => discriminate E
  end.

(** Whatever it is called with, [model] raises nothing but OverflowError
    and, on a K that is zero as a float, ZeroDivisionError. *)
Lemma py_model_raises (t s r rho K m alpha C beta : num) (e : exn) :
  Py.model t (s, r) rho K m alpha C beta = raise e ->
  e = OverflowError \/
  (e = ZeroDivisionError /\
   exists f, Py.to_float K = ret f /\ (f =? 0)%float = true).
Proof.
  intros E. unfold Py.model, Py.mul, Py.add, Py.sub in E. raise_inv E.
Qed.

(** With a K that is zero it never returns. *)
Lemma py_model_K_zero (t s r rho K m alpha C beta : num) :
  Py.is_zero K = true ->
  exists e, Py.model t (s, r) rho K m alpha C beta = raise e.
Proof.
  intros HK. unfold Py.model.
  destruct (Py.mul m r) as [e | a]; [exists e; reflexivity |].
  cbn [bind]. destruct (Py.add s a) as [e | b]; [exists e; reflexivity |].
  cbn [bind]. destruct (div_by_zero b K HK) as [e He]. rewrite He.
  exists e. reflexivity.
Qed.

Lemma float_of_int_1 : float_of_int 1 = ret (float_of_Z 1).
Proof. vm_compute. reflexivity. Qed.

(** On floats it is [model] read at the carrier of Python floats. *)
Lemma py_model_floats (t s r rho K m alpha C beta : float) :
  Py.model (Float t) (Float s, Float r) (Float rho) (Float K) (Float m)
           (Float alpha) (Float C) (Float beta)
  = (d <- model t (s, r) rho K m alpha C beta ;;
     ret (Float (fst d), Float (snd d))).
Proof.
  unfold Py.model, model, Py.mul, Py.add, Py.sub, Py.div, Py.arith, truediv.
  cbn [Py.to_float bind ret traps float_number n_add n_mul n_sub n_quot of_int].
  destruct (K =? 0)%float; [reflexivity |].
  cbn [Py.to_float bind ret]. rewrite float_of_int_1.
  cbn [Py.to_float bind ret fst snd]. reflexivity.
Qed.




(** Whenever the call on Python floats returns, the call on float64 values,
    as SciPy makes it, returns the same two numbers. *)
Theorem float64_agrees (t s r rho K m alpha C beta ds_dt dr_dt : float) :
  model t (s, r) rho K m alpha C beta = ret (ds_dt, dr_dt) ->
  model (F64 t) (F64 s, F64 r) (F64 rho) (F64 K) (F64 m) (F64 alpha) (F64 C)
        (F64 beta) = ret (F64 ds_dt, F64 dr_dt).
Proof.
  intros E. destruct (traps K) eqn:HK.
  - rewrite model_raises in E by exact HK. discriminate E.
  - rewrite model_no_trap in E by exact HK. apply ret_inj in E.
    injection E as E1 E2. subst ds_dt dr_dt.
    rewrite model_no_trap by reflexivity. reflexivity.
Qed.

Lemma float64_agrees_witness :
  model (F64 0) (F64 (-2), F64 3) (F64 1) (F64 4) (F64 2) (F64 1) (F64 1) (F64 3)
  = ret (F64 2, F64 4.5).
Proof.
  apply (float64_agrees 0 (-2) 3 1 4 2 1 1 3 2 4.5)%float. reflexivity.
Defined.

(** ** The dynamics over the reals *)

Section RealDynamics.
Variables (t rho K m alpha C beta : R).
Hypothesis K_nonzero : K <> 0%R.
Local Open Scope R_scope.

(** Each component is its population times a per-capita rate. *)
Lemma model_per_capita (s r : R) :
  model t (s, r) rho K m alpha C beta =
  ret (s * (rho * (1 - (s + m * r) / K) - alpha * C),
       r * (rho * (1 - (s + m * r) / K) - beta * s / K)).
Proof.
  rewrite model_no_trap by (apply traps_R_false, K_nonzero).
  simpl. f_equal. f_equal; ring.
Qed.

(** The equilibria of the vector field are exactly four points: the origin,
    the resistant-only state (0, K/m), the sensitive-only state
    (K*(1 - alpha*C/rho), 0), and the coexistence state in which both
    per-capita rates vanish. *)
Theorem equilibria_classification (s r : R) :
  rho <> 0 -> m <> 0 -> beta <> 0 ->
  (model t (s, r) rho K m alpha C beta = ret (0, 0) <->
   (s = 0 /\ r = 0) \/
   (s = 0 /\ r = K / m) \/
   (s = K * (1 - alpha * C / rho) /\ r = 0) \/
   (s = alpha * C * K / beta /\
    r = (K * (1 - alpha * C / rho) - alpha * C * K / beta) / m)).
Proof.
  intros Hrho Hm Hbeta. rewrite model_per_capita. split.
  - intros E. apply ret_inj in E. injection E as Es Er.
    apply Rmult_integral in Es. apply Rmult_integral in Er.
    destruct Es as [Hs | Hs].
    + subst s. destruct Er as [Hr | Hr]; [left; split; [reflexivity | exact Hr] |].
      right. left. split; [reflexivity |].
      assert (Hg : 1 - (0 + m * r) / K = 0).
      { replace (beta * 0 / K) with 0 in Hr by (field; exact K_nonzero).
        rewrite Rminus_0_r in Hr.
        apply Rmult_integral in Hr. destruct Hr; [contradiction | assumption]. }
      assert (Hq : (0 + m * r) / K = 1) by lra.
      assert (Hk : m * r = K).
      { replace (m * r) with ((0 + m * r) / K * K) by (field; exact K_nonzero).
        rewrite Hq. ring. }
      rewrite <- Hk. field. exact Hm.
    + assert (Hac : alpha * C = rho * (1 - (s + m * r) / K)) by lra.
      right. right. destruct Er as [Hr | Hr].
      * left. split; [| exact Hr]. subst r. rewrite Hac. field.
        split; assumption.
      * right.
        assert (Hb : beta * s / K = alpha * C) by lra.
        assert (Hsv : s = alpha * C * K / beta).
        { rewrite <- Hb. field. split; assumption. }
        split; [exact Hsv |].
        rewrite <- Hsv. rewrite Hac. field. repeat split; assumption.
  - intros [[Hs Hr] | [[Hs Hr] | [[Hs Hr] | [Hs Hr]]]]; subst s r;
      f_equal; f_equal; field; repeat split; assumption.
Qed.

(** The vector field is homogeneous of degree one in (s, r, K): counting the
    cells and the capacity in another unit rescales the derivative alike. *)
Theorem model_homogeneous (lam s r : R) :
  lam <> 0 ->
  model t (lam * s, lam * r) rho (lam * K) m alpha C beta =
  (d <- model t (s, r) rho K m alpha C beta ;;
   ret (lam * fst d, lam * snd d)).
Proof.
  intros Hl.
  rewrite (model_no_trap t (lam * s) (lam * r) rho (lam * K))
    by (apply traps_R_false, Rmult_integral_contrapositive_currified; assumption).
  rewrite model_no_trap by (apply traps_R_false, K_nonzero).
  simpl. f_equal. f_equal; field; split; assumption.
Qed.
End RealDynamics.

Lemma equilibria_classification_witness :
  model 0%R (3%R, 1%R) 2%R 12%R 3%R 1%R 1%R 4%R = ret (0%R, 0%R) <->
  (3 = 0 /\ 1 = 0)%R \/
  (3 = 0 /\ 1 = 12 / 3)%R \/
  (3 = 12 * (1 - 1 * 1 / 2) /\ 1 = 0)%R \/
  (3 = 1 * 1 * 12 / 4 /\ 1 = (12 * (1 - 1 * 1 / 2) - 1 * 1 * 12 / 4) / 3)%R.
Proof.
  apply (equilibria_classification 0%R 2%R 12%R 3%R 1%R 1%R 4%R); lra.
Defined.

Lemma model_homogeneous_witness :
  model 0%R ((1000 * 3)%R, (1000 * 1)%R) 2%R (1000 * 12)%R 3%R 1%R 1%R 4%R =
  (d <- model 0%R (3%R, 1%R) 2%R 12%R 3%R 1%R 1%R 4%R ;;
   ret ((1000 * fst d)%R, (1000 * snd d)%R)).
Proof.
  apply (model_homogeneous 0%R 2%R 12%R 3%R 1%R 1%R 4%R); lra.
Defined.

(** At or above the carrying capacity (s + m*r >= K), with nonnegative
    populations and coefficients, neither population grows. *)
Theorem no_growth_above_capacity (t rho K m alpha C beta s r : R) :
  (0 < K)%R -> (0 <= rho)%R -> (0 <= m)%R -> (0 <= alpha * C)%R ->
  (0 <= beta)%R -> (0 <= s)%R -> (0 <= r)%R -> (K <= s + m * r)%R ->
  exists ds_dt dr_dt,
    model t (s, r) rho K m alpha C beta = ret (ds_dt, dr_dt) /\
    (ds_dt <= 0)%R /\ (dr_dt <= 0)%R.
Proof.
  intros HK Hrho Hm Hac Hbeta Hs Hr Hcap.
  rewrite model_per_capita by lra. eexists. eexists. split; [reflexivity |].
  assert (Hq : (1 <= (s + m * r) / K)%R).
  { apply (Rmult_le_reg_r K); [exact HK |].
    unfold Rdiv. rewrite Rmult_assoc, Rinv_l by lra. lra. }
  assert (Hg : (rho * (1 - (s + m * r) / K) <= 0)%R).
  { replace 0%R with (rho * 0)%R by ring. apply Rmult_le_compat_l; lra. }
  assert (Hb : (0 <= beta * s / K)%R).
  { unfold Rdiv. apply Rmult_le_pos; [apply Rmult_le_pos; assumption |].
    left. apply Rinv_0_lt_compat. exact HK. }
  split.
  - replace 0%R with (s * 0)%R by ring. apply Rmult_le_compat_l; lra.
  - replace 0%R with (r * 0)%R by ring. apply Rmult_le_compat_l; lra.
Qed.

Lemma no_growth_above_capacity_witness :
  exists ds_dt dr_dt,
    model 0%R (6%R, 2%R) 2%R 12%R 3%R 1%R 1%R 4%R = ret (ds_dt, dr_dt) /\
    (ds_dt <= 0)%R /\ (dr_dt <= 0)%R.
Proof.
  apply (no_growth_above_capacity 0%R 2%R 12%R 3%R 1%R 1%R 4%R 6%R 2%R); lra.
Defined.

(** A drug effect alpha*C of at least the growth rate rho makes every
    positive sensitive population decline, whatever the resistant one. *)
Theorem drug_threshold (t rho K m alpha C beta s r : R) :
  (0 < K)%R -> (0 < rho)%R -> (0 <= m)%R -> (rho <= alpha * C)%R ->
  (0 < s)%R -> (0 <= r)%R ->
  exists ds_dt dr_dt,
    model t (s, r) rho K m alpha C beta = ret (ds_dt, dr_dt) /\ (ds_dt < 0)%R.
Proof.
  intros HK Hrho Hm Hac Hs Hr.
  rewrite model_per_capita by lra. eexists. eexists. split; [reflexivity |].
  assert (HN : (0 < s + m * r)%R).
  { apply Rplus_lt_le_0_compat; [exact Hs | apply Rmult_le_pos; assumption]. }
  assert (Hq : (0 < (s + m * r) / K)%R).
  { unfold Rdiv. apply Rmult_lt_0_compat; [exact HN |].
    apply Rinv_0_lt_compat. exact HK. }
  assert (Hg : (rho * (1 - (s + m * r) / K) < rho)%R).
  { replace rho with (rho * 1)%R at 2 by ring.
    apply Rmult_lt_compat_l; lra. }
  replace 0%R with (s * 0)%R by ring. apply Rmult_lt_compat_l; lra.
Qed.

Lemma drug_threshold_witness :
  exists ds_dt dr_dt,
    model 0%R (5%R, 1%R) 2%R 12%R 3%R 2%R 1%R 4%R = ret (ds_dt, dr_dt) /\
    (ds_dt < 0)%R.
Proof.
  apply (drug_threshold 0%R 2%R 12%R 3%R 2%R 1%R 4%R 5%R 1%R); lra.
Defined.

(** ** The script: composition, failures and what the loop leaves alone *)

Lemma for_each_app {A S : Type} (body : S -> A -> result S) (l1 l2 : list A) :
  forall st,
    for_each body (l1 ++ l2)%list st =
    (st' <- for_each body l1 st ;; for_each body l2 st').
Proof.
  induction l1 as [| a l1 IH]; intros st; [reflexivity |].
  simpl. destruct (body st a) as [e | st1]; [reflexivity |].
  simpl. apply IH.
Qed.

Lemma bind_ret_r {A : Type} (c : result A) : (a <- c ;; ret a) = c.
Proof. destruct c; reflexivity. Qed.

Section ScriptLaws.
Variable solve_ivp : solver.
Variables (C s0 r0 : float).

(** Running the script on a selection in two parts. *)
Lemma script_app (l1 l2 : list (num * num)) :
  App.script solve_ivp C s0 r0 (l1 ++ l2)%list =
  (v <- App.script solve_ivp C s0 r0 l1 ;;
   for_each (App.trajectory solve_ivp C) l2 v).
Proof.
  unfold App.script.
  destruct (App.simulate solve_ivp C s0 r0) as [e | v0]; [reflexivity |].
  cbn [bind].
  destruct (for_each App.annotate App.equilibrium_points v0) as [e | v1];
    [reflexivity |].
  cbn [bind]. apply for_each_app.
Qed.

(** What [simulate] returns has an empty phase-plane figure. *)
Lemma simulate_phase_plane (v0 : App.Vars) :
  App.simulate solve_ivp C s0 r0 = ret v0 -> App.fig_phase_plane v0 = go.empty.
Proof.
  unfold App.simulate.
  destruct (App.integrate solve_ivp C (s0, r0)) as [e | sol]; [discriminate |].
  simpl. destruct (unpack2 (Ode.y sol)) as [e | [srow rrow]]; [discriminate |].
  simpl. intros E. apply ret_inj in E. subst v0. reflexivity.
Qed.

(** Selecting one more initial condition, at the end of the selection, runs
    the same script and then one more step of the loop: the step appends
    the trace of the new element and leaves the earlier traces, the
    annotations, the main figure and its times as they were. *)
Theorem script_append (l : list (num * num)) (elt : num * num) :
  App.script solve_ivp C s0 r0 (l ++ [elt])%list =
    (v <- App.script solve_ivp C s0 r0 l ;; App.trajectory solve_ivp C v elt) /\
  (forall v v',
      App.script solve_ivp C s0 r0 l = ret v ->
      App.script solve_ivp C s0 r0 (l ++ [elt])%list = ret v' ->
      exists tr,
        go.data (App.fig_phase_plane v') =
          (go.data (App.fig_phase_plane v) ++ [tr])%list /\
        trace_of solve_ivp C elt tr /\
        go.annotations (App.fig_phase_plane v') =
          go.annotations (App.fig_phase_plane v) /\
        App.fig v' = App.fig v /\ App.t v' = App.t v).
Proof.
  assert (Heq : App.script solve_ivp C s0 r0 (l ++ [elt])%list =
                (v <- App.script solve_ivp C s0 r0 l ;;
                 App.trajectory solve_ivp C v elt)).
  { rewrite script_app.
    destruct (App.script solve_ivp C s0 r0 l) as [e | v]; [reflexivity |].
    cbn [bind for_each]. apply bind_ret_r. }
  split; [exact Heq |].
  intros v v' Hl Hrun. rewrite Heq, Hl, bind_ret in Hrun.
  apply trajectory_returns in Hrun.
  destruct Hrun as [sol [srow [rrow [a [b [Hi [Hy [Ha [Hb Hv]]]]]]]]].
  subst v'. cbn [App.fig_phase_plane App.fig App.t go.data go.annotations
                  go.add_trace].
  eexists. split; [reflexivity |].
  split; [| repeat split].
  exists sol, a, b. cbn [go.x go.y go.name]. repeat split; assumption.
Qed.

(** With an empty selection the script is the simulation followed by the
    three annotations: the phase-plane figure has no trace. *)
Theorem script_empty_selection :
  App.script solve_ivp C s0 r0 [] =
  (v0 <- App.simulate solve_ivp C s0 r0 ;;
   ret (with_phase_plane v0
          {| go.data := [];
             go.annotations :=
               [ {| go.ax := Int 0; go.ay := Float (int_quot App.k App.m);
                    go.text := "(0,160.0k)"; go.showarrow := true;
                    go.arrowhead := 2 |};
                 {| go.ax := Int App.k; go.ay := Int 0;
                    go.text := "(4800.0k,0)"; go.showarrow := true;
                    go.arrowhead := 2 |};
                 {| go.ax := Int 0; go.ay := Int 0;
                    go.text := "(0,0)"; go.showarrow := true;
                    go.arrowhead := 2 |} ] |})).
Proof.
  unfold App.script.
  destruct (App.simulate solve_ivp C s0 r0) as [e | v0] eqn:Hs; [reflexivity |].
  apply simulate_phase_plane in Hs. destruct v0 as [sol t s r fig fpp].
  simpl in Hs. subst fpp. vm_compute. reflexivity.
Qed.

(** What SciPy returns when it reaches no evaluation time, a [y] without
    its two rows, makes the unpacking of line 65 raise ValueError. *)
Theorem simulate_needs_two_rows (sol : Ode.Result) :
  App.integrate solve_ivp C (s0, r0) = ret sol ->
  List.length (Ode.y sol) <> 2%nat ->
  App.simulate solve_ivp C s0 r0 = raise ValueError /\
  forall init_cond, App.script solve_ivp C s0 r0 init_cond = raise ValueError.
Proof.
  intros Hi Hn.
  assert (Hs : App.simulate solve_ivp C s0 r0 = raise ValueError).
  { unfold App.simulate. rewrite Hi, bind_ret.
    destruct (Ode.y sol) as [| a [| b [| c rest]]]; try reflexivity.
    contradiction Hn. reflexivity. }
  split; [exact Hs |].
  intros init_cond. unfold App.script. rewrite Hs. reflexivity.
Qed.
End ScriptLaws.

Section ScriptFrame.
Variable solve_ivp : solver.
Variables (C s0 r0 : float).

(** What the annotation step leaves alone: everything but the phase-plane
    figure. *)
Lemma annotate_frame (points : list (num * num)) (v v' : App.Vars) :
  for_each App.annotate points v = ret v' ->
  App.solution v' = App.solution v /\ App.t v' = App.t v /\
  App.s v' = App.s v /\ App.r v' = App.r v /\ App.fig v' = App.fig v.
Proof.
  intros Hrun.
  pose (P := fun (st : App.Vars) (done : list (num * num)) =>
               App.solution st = App.solution v /\ App.t st = App.t v /\
               App.s st = App.s v /\ App.r st = App.r v /\
               App.fig st = App.fig v).
  apply (for_each_invariant App.annotate P) with (done := []) in Hrun.
  - exact Hrun.
  - intros st a st' done HP Hstep. apply annotate_returns in Hstep.
    destruct Hstep as [x [y [_ [_ Hv]]]]. subst st'. exact HP.
  - repeat split.
Qed.

(** The two loops leave the main figure alone. *)
Lemma script_main_figure (init_cond : list (num * num)) (v : App.Vars) :
  App.script solve_ivp C s0 r0 init_cond = ret v ->
  exists v0, App.simulate solve_ivp C s0 r0 = ret v0 /\ App.fig v = App.fig v0.
Proof.
  unfold App.script, bind. intros Hrun.
  destruct (App.simulate solve_ivp C s0 r0) as [e | v0] eqn:Hs; [discriminate |].
  destruct (for_each App.annotate App.equilibrium_points v0) as [e | v1] eqn:Ha;
    [discriminate |].
  apply annotate_frame in Ha. destruct Ha as [_ [_ [_ [_ Hf]]]].
  exists v0. split; [reflexivity |].
  apply (for_each_invariant (App.trajectory solve_ivp C)
           (fun st _ => App.fig st = App.fig v0)) with (done := []) in Hrun.
  - exact Hrun.
  - intros st a st' done HP Hstep. apply trajectory_returns in Hstep.
    destruct Hstep as [sol [srow [rrow [x [y [_ [_ [_ [_ Hv]]]]]]]]].
    subst st'. exact HP.
  - exact Hf.
Qed.

(** After the script the times [t] and the main figure are those of the
    simulation of lines 59-69, but [solution], [s] and [r] are those of the
    last selected initial condition: the loop assigns them again.  With an
    empty selection they too are those of the simulation. *)
Theorem script_final_variables (init_cond : list (num * num)) (v : App.Vars) :
  App.script solve_ivp C s0 r0 init_cond = ret v ->
  exists v0,
    App.simulate solve_ivp C s0 r0 = ret v0 /\
    App.t v = App.t v0 /\ App.fig v = App.fig v0 /\
    match rev init_cond with
    | [] => App.solution v = App.solution v0 /\
            App.s v = App.s v0 /\ App.r v = App.r v0
    | elt :: _ =>
        App.integrate solve_ivp C (as_float (fst elt), as_float (snd elt))
          = ret (App.solution v) /\
        Ode.y (App.solution v) = [App.s v; App.r v]
    end.
Proof.
  unfold App.script, bind. intros Hrun.
  destruct (App.simulate solve_ivp C s0 r0) as [e | v0] eqn:Hs; [discriminate |].
  destruct (for_each App.annotate App.equilibrium_points v0) as [e | v1] eqn:Ha;
    [discriminate |].
  apply annotate_frame in Ha. destruct Ha as [Hsol [Ht [Hss [Hr Hf]]]].
  exists v0. split; [reflexivity |].
  pose (P := fun (st : App.Vars) (done : list (num * num)) =>
               App.t st = App.t v0 /\ App.fig st = App.fig v0 /\
               match rev done with
               | [] => App.solution st = App.solution v0 /\
                       App.s st = App.s v0 /\ App.r st = App.r v0
               | elt :: _ =>
                   App.integrate solve_ivp C
                     (as_float (fst elt), as_float (snd elt))
                     = ret (App.solution st) /\
                   Ode.y (App.solution st) = [App.s st; App.r st]
               end).
  apply (for_each_invariant (App.trajectory solve_ivp C) P) with (done := [])
    in Hrun.
  - exact Hrun.
  - intros st a st' done [Pt [Pf _]] Hstep.
    pose proof (trajectory_inv _ _ _ _ _ Hstep) as [Hi Hy].
    apply trajectory_returns in Hstep.
    destruct Hstep as [sol [srow [rrow [x [y [_ [_ [_ [_ Hv]]]]]]]]].
    unfold P. rewrite rev_app_distr. cbn [rev app].
    split; [subst st'; exact Pt |].
    split; [subst st'; exact Pf |].
    split; assumption.
  - unfold P. cbn [rev]. repeat split; assumption.
Qed.

(** A selection made through the multiselect takes each of the five
    candidates at most once: the phase-plane figure then holds one trace per
    selected candidate, five at most. *)
Theorem multiselect_traces (init_cond : list (num * num)) (v : App.Vars) :
  NoDup init_cond ->
  incl init_cond App.default_init_cond ->
  App.script solve_ivp C s0 r0 init_cond = ret v ->
  List.length (go.data (App.fig_phase_plane v)) = List.length init_cond /\
  (List.length (go.data (App.fig_phase_plane v)) <= 5)%nat.
Proof.
  intros Hnd Hincl Hrun.
  apply script_returns in Hrun. destruct Hrun as [_ Hf].
  apply Forall2_length in Hf.
  split; [symmetry; exact Hf |].
  rewrite <- Hf.
  apply (NoDup_incl_length Hnd Hincl).
Qed.
(** Whatever the solver reports, as long as it keeps SciPy's contract, every
    trace of both figures has as many abscissae as ordinates, also the
    traces of integrations that stopped early. *)
Theorem traces_well_formed (init_cond : list (num * num)) (v : App.Vars) :
  scipy_contract solve_ivp ->
  App.script solve_ivp C s0 r0 init_cond = ret v ->
  Forall (fun tr => List.length (go.x tr) = List.length (go.y tr))
         (go.data (App.fig v)) /\
  Forall (fun tr => List.length (go.x tr) = List.length (go.y tr))
         (go.data (App.fig_phase_plane v)).
Proof.
  intros Hc Hrun. split.
  - destruct (script_main_figure _ _ Hrun) as [v0 [Hs Hf]]. rewrite Hf.
    destruct (simulate_inv _ _ _ _ _ Hs) as [Hi [Hy Ht]].
    rewrite (simulate_returns _ _ _ _ _ _ _ Hi Hy) in Hs.
    apply ret_inj in Hs. rewrite <- Hs. cbn [App.fig go.data].
    destruct (contract_rows _ _ _ _ _ _ Hc Hi Hy) as [H1 H2].
    repeat constructor; cbn [go.x go.y]; symmetry; assumption.
  - apply script_returns in Hrun. destruct Hrun as [_ Hf].
    induction Hf as [| elt tr l trs Htr _ IH]; constructor; [| exact IH].
    destruct Htr as [sol [a [b [Hi [Hy _]]]]].
    destruct (contract_rows _ _ _ _ _ _ Hc Hi Hy) as [H1 H2].
    rewrite H1, H2. reflexivity.
Qed.
End ScriptFrame.

(** ** When the script returns *)

Section ScriptSucceeds.
Variable solve_ivp : solver.
Variables (C s0 r0 : float).

Lemma simulate_ok :
  integrates solve_ivp C (s0, r0) -> exists v0, App.simulate solve_ivp C s0 r0 = ret v0.
Proof.
  intros [sol [Hi Hlen]].
  destruct (Ode.y sol) as [| a [| b [| c rest]]] eqn:Hy; try discriminate.
  eexists. apply (simulate_returns solve_ivp C s0 r0 sol a b Hi Hy).
Qed.

(** The labels of the three equilibrium points fit: the annotation loop
    returns on every state of the variables. *)
Lemma annotate_ok (v0 : App.Vars) :
  exists v1, for_each App.annotate App.equilibrium_points v0 = ret v1.
Proof. destruct v0. eexists. vm_compute. reflexivity. Qed.

(** So do the labels of the five candidates of the multiselect. *)
Lemma default_labels (elt : num * num) :
  In elt App.default_init_cond ->
  exists a b, format_number (fst elt) = ret a /\ format_number (snd elt) = ret b.
Proof.
  unfold App.default_init_cond. intros H.
  repeat (destruct H as [H | H];
          [subst elt; eexists; eexists; split; vm_compute; reflexivity |]).
  contradiction H.
Qed.

Lemma trajectory_ok (v : App.Vars) (elt : num * num) :
  integrates solve_ivp C (as_float (fst elt), as_float (snd elt)) ->
  In elt App.default_init_cond ->
  exists v', App.trajectory solve_ivp C v elt = ret v'.
Proof.
  intros [sol [Hi Hlen]] Hin.
  destruct (default_labels elt Hin) as [a [b [Ha Hb]]].
  destruct elt as [S0 R0]. cbn [fst snd] in Hi, Ha, Hb.
  unfold App.trajectory. rewrite Hi, bind_ret.
  destruct (Ode.y sol) as [| x [| y [| z rest]]]; try discriminate.
  cbn [unpack2]. rewrite bind_ret, Ha, bind_ret, Hb, bind_ret.
  eexists. reflexivity.
Qed.

Lemma trajectory_loop_ok (init_cond : list (num * num)) :
  incl init_cond App.default_init_cond ->
  Forall (fun elt => integrates solve_ivp C (as_float (fst elt), as_float (snd elt)))
         init_cond ->
  forall v, exists v', for_each (App.trajectory solve_ivp C) init_cond v = ret v'.
Proof.
  induction init_cond as [| elt l IH]; intros Hincl Hall v.
  - eexists. reflexivity.
  - apply Forall_cons_iff in Hall. destruct Hall as [He Hl].
    destruct (trajectory_ok v elt He (Hincl elt (or_introl eq_refl))) as [v1 Hv1].
    cbn [for_each]. rewrite Hv1, bind_ret.
    apply IH; [| exact Hl].
    intros x Hx. apply Hincl. right. exact Hx.
Qed.

(** The script returns exactly when each of its integrations does, with
    the two rows that lines 65 and 105 unpack: for a selection made among
    the candidates of the multiselect no label can fail, and nothing else
    in lines 59-106 can raise. *)
Theorem script_succeeds_iff (init_cond : list (num * num)) :
  incl init_cond App.default_init_cond ->
  ((exists v, App.script solve_ivp C s0 r0 init_cond = ret v) <->
   integrates solve_ivp C (s0, r0) /\
   Forall (fun elt =>
             integrates solve_ivp C (as_float (fst elt), as_float (snd elt)))
          init_cond).
Proof.
  intros Hincl. split.
  - intros [v Hrun]. split.
    + unfold App.script in Hrun.
      destruct (App.simulate solve_ivp C s0 r0) as [e | v0] eqn:Hs;
        [discriminate |].
      apply simulate_inv in Hs. destruct Hs as [Hi [Hy _]].
      eexists. split; [exact Hi |]. rewrite Hy. reflexivity.
    + apply script_returns in Hrun. destruct Hrun as [_ Hf].
      induction Hf as [| elt tr l trs Htr _ IH]; constructor.
      * destruct Htr as [sol [a [b [Hi [Hy _]]]]].
        exists sol. split; [exact Hi |]. rewrite Hy. reflexivity.
      * apply IH. intros x Hx. apply Hincl. right. exact Hx.
  - intros [Hmain Hall]. unfold App.script.
    destruct (simulate_ok Hmain) as [v0 Hv0]. rewrite Hv0, bind_ret.
    destruct (annotate_ok v0) as [v1 Hv1]. rewrite Hv1, bind_ret.
    apply trajectory_loop_ok; assumption.
Qed.
End ScriptSucceeds.

Lemma script_succeeds_iff_witness :
  (exists v, App.script euler 0.9%float 1000000%float 5000%float
                        [(Int (10 ^ 6), Int (10 ^ 5))] = ret v) <->
  integrates euler 0.9%float (1000000%float, 5000%float) /\
  Forall (fun elt =>
            integrates euler 0.9%float (as_float (fst elt), as_float (snd elt)))
         [(Int (10 ^ 6), Int (10 ^ 5))].
Proof.
  apply (script_succeeds_iff euler 0.9%float 1000000%float 5000%float
           [(Int (10 ^ 6), Int (10 ^ 5))]).
  intros x [Hx | []]. left. exact Hx.
Defined.

Lemma simulate_needs_two_rows_witness :
  App.simulate (fails_when (fun _ => true)) 0.9%float 1000000%float 5000%float
    = raise ValueError /\
  forall init_cond,
    App.script (fails_when (fun _ => true)) 0.9%float 1000000%float 5000%float
               init_cond = raise ValueError.
Proof.
  apply (simulate_needs_two_rows (fails_when (fun _ => true)) 0.9%float
           1000000%float 5000%float
           {| Ode.t := []; Ode.y := []; Ode.status := -1;
              Ode.message := "Required step size is less than spacing between numbers.";
              Ode.success := false |}).
  - reflexivity.
  - simpl. lia.
Defined.

Lemma script_final_variables_witness :
  exists v,
    App.script euler 0.9%float 1000000%float 5000%float
               [(Int (10 ^ 6), Int (10 ^ 5))] = ret v /\
    exists v0,
      App.simulate euler 0.9%float 1000000%float 5000%float = ret v0 /\
      App.t v = App.t v0 /\ App.fig v = App.fig v0 /\
      App.integrate euler 0.9%float
        (as_float (Int (10 ^ 6)), as_float (Int (10 ^ 5)))
        = ret (App.solution v) /\
      Ode.y (App.solution v) = [App.s v; App.r v].
Proof.
  eexists. split; [vm_compute; reflexivity |].
  apply (script_final_variables euler 0.9%float 1000000%float 5000%float
           [(Int (10 ^ 6), Int (10 ^ 5))]).
  vm_compute. reflexivity.
Defined.

Lemma multiselect_traces_witness :
  exists v,
    App.script euler 0.9%float 1000000%float 5000%float
               [(Int (10 ^ 6), Int (10 ^ 5)); (Int (17 * 10 ^ 5), Int (2 * 10 ^ 4))]
      = ret v /\
    List.length (go.data (App.fig_phase_plane v)) = 2%nat /\
    (List.length (go.data (App.fig_phase_plane v)) <= 5)%nat.
Proof.
  eexists. split; [vm_compute; reflexivity |].
  apply (multiselect_traces euler 0.9%float 1000000%float 5000%float
           [(Int (10 ^ 6), Int (10 ^ 5)); (Int (17 * 10 ^ 5), Int (2 * 10 ^ 4))]).
  - repeat constructor; simpl; intros H;
      repeat (destruct H as [H | H]; [discriminate H |]); exact H.
  - intros x [Hx | [Hx | []]]; subst x; simpl; tauto.
  - vm_compute. reflexivity.
Defined.

Lemma script_append_witness :
  exists v v',
    App.script euler 0.9%float 1000000%float 5000%float [] = ret v /\
    App.script euler 0.9%float 1000000%float 5000%float
               ([] ++ [(Int (10 ^ 6), Int (10 ^ 5))]) = ret v' /\
    exists tr,
      go.data (App.fig_phase_plane v') =
        (go.data (App.fig_phase_plane v) ++ [tr])%list /\
      trace_of euler 0.9%float (Int (10 ^ 6), Int (10 ^ 5)) tr /\
      go.annotations (App.fig_phase_plane v') =
        go.annotations (App.fig_phase_plane v) /\
      App.fig v' = App.fig v /\ App.t v' = App.t v.
Proof.
  eexists. eexists.
  split; [vm_compute; reflexivity |].
  split; [vm_compute; reflexivity |].
  apply (proj2 (script_append euler 0.9%float 1000000%float 5000%float
                  [] (Int (10 ^ 6), Int (10 ^ 5))));
    vm_compute; reflexivity.
Defined.

(** ** The labels of [format_number] *)

Lemma str_int_roundtrip (z : Z) :
  option_map Z.of_int (NilZero.int_of_string (str_int z)) = Some z.
Proof.
  unfold str_int. rewrite NilZero.isi.
  - simpl. f_equal. apply DecimalZ.of_to.
  - destruct z; simpl; try discriminate.
    intros E. injection E as E. exact (DecimalPos.Unsigned.to_uint_nonnil p E).
  - destruct z; simpl; try discriminate.
    intros E. injection E as E. exact (DecimalPos.Unsigned.to_uint_nonnil p E).
Qed.

Lemma str_int_inj (z1 z2 : Z) : str_int z1 = str_int z2 -> z1 = z2.
Proof.
  intros E. pose proof (str_int_roundtrip z1) as H1.
  rewrite E, str_int_roundtrip in H1. injection H1 as H1. symmetry. exact H1.
Qed.

Lemma all_chars_app (p : ascii -> bool) (a b : string) :
  all_chars p (a ++ b) = all_chars p a && all_chars p b.
Proof.
  induction a as [| c a IH]; [reflexivity |].
  simpl. rewrite IH. apply andb_assoc.
Qed.

Lemma all_chars_substring (p : ascii -> bool) (s : string) :
  all_chars p s = true -> forall n m, all_chars p (substring n m s) = true.
Proof.
  induction s as [| c s IH]; intros H n m.
  - destruct n, m; reflexivity.
  - simpl in H. apply andb_prop in H as [Hc Hs].
    destruct n as [| n].
    + destruct m as [| m]; [reflexivity |]. simpl. rewrite Hc. apply IH. exact Hs.
    + simpl. apply IH. exact Hs.
Qed.

Lemma ends_with_k_app_k (a : string) : ends_with_k (a ++ "k") = true.
Proof.
  induction a as [| c a IH]; [reflexivity |].
  simpl. destruct (a ++ "k") eqn:E; [destruct a; discriminate | exact IH].
Qed.

Lemma not_k_no_suffix (s : string) :
  all_chars not_k s = true -> ends_with_k s = false.
Proof.
  induction s as [| c s IH]; [reflexivity |].
  simpl. intros H. apply andb_prop in H as [Hc Hs].
  destruct s; [| apply IH; exact Hs].
  unfold not_k in Hc. apply negb_true_iff in Hc. exact Hc.
Qed.

Lemma uint_digits (d : Decimal.uint) :
  all_chars not_k (NilEmpty.string_of_uint d) = true.
Proof. induction d; simpl; try reflexivity; exact IHd. Qed.

Lemma str_int_no_k (z : Z) : all_chars not_k (str_int z) = true.
Proof.
  unfold str_int, NilZero.string_of_int, NilZero.string_of_uint.
  destruct (Z.to_int z) as [d | d]; destruct d; simpl; try reflexivity;
    apply uint_digits.
Qed.

Lemma zeros_no_k (n : nat) : all_chars not_k (zeros n) = true.
Proof. induction n; [reflexivity | exact IHn]. Qed.

Lemma sign_str_no_k (s : bool) : all_chars not_k (sign_str s) = true.
Proof. destruct s; reflexivity. Qed.

Lemma pad2_no_k (z : Z) : all_chars not_k (pad2 z) = true.
Proof.
  unfold pad2. destruct (z <? 10); [| apply str_int_no_k].
  rewrite all_chars_app, str_int_no_k. reflexivity.
Qed.

Lemma repr_digits_no_k (ds : string) (decpt : Z) :
  all_chars not_k ds = true -> all_chars not_k (repr_digits ds decpt) = true.
Proof.
  intros H. unfold repr_digits.
  destruct ((decpt <=? -4) || (16 <? decpt)).
  - rewrite !all_chars_app, pad2_no_k, (all_chars_substring _ _ H).
    destruct (1 <? Z.of_nat (String.length ds));
      [rewrite all_chars_app, (all_chars_substring _ _ H) |];
      destruct (decpt - 1 <? 0); reflexivity.
  - destruct (decpt <=? 0).
    + rewrite !all_chars_app, zeros_no_k, H. reflexivity.
    + destruct (Z.of_nat (String.length ds) <=? decpt).
      * rewrite !all_chars_app, zeros_no_k, H. reflexivity.
      * rewrite !all_chars_app, !(all_chars_substring _ _ H). reflexivity.
Qed.

(** [repr] of a float has no letter k in it. *)
Lemma float_repr_no_k (f : float) : all_chars not_k (float_repr f) = true.
Proof.
  unfold float_repr. destruct (Prim2SF f) as [s | s | | s m e].
  - rewrite all_chars_app, sign_str_no_k. reflexivity.
  - rewrite all_chars_app, sign_str_no_k. reflexivity.
  - reflexivity.
  - destruct (shortest 17 (Z.pos m) e (decpt_of (Z.pos m) e) 1) as [d k].
    destruct (strip_zeros 20 d k) as [d' k'].
    rewrite all_chars_app, sign_str_no_k.
    apply repr_digits_no_k, str_int_no_k.
Qed.

(** A label ends in k exactly when its number is at least 1000: the suffix
    is the only k of a label, so a reader can tell the scaled labels from
    the plain ones. *)
Theorem label_suffix (n : num) (label : string) :
  format_number n = ret label ->
  ends_with_k label = ge_int n 1000.
Proof.
  unfold format_number. destruct (ge_int n 1000).
  - destruct (truediv_int n 1000) as [e | q]; [discriminate |].
    rewrite bind_ret. intros E. apply ret_inj in E. subst label.
    apply ends_with_k_app_k.
  - intros E. apply not_k_no_suffix. destruct n as [z | f].
    + unfold str, str_of_int in E.
      destruct (int_max_str_digits <? int_digits z); [discriminate |].
      apply ret_inj in E. subst label. apply str_int_no_k.
    + apply ret_inj in E. subst label. apply float_repr_no_k.
Qed.

Lemma label_suffix_witness :
  ends_with_k "1.2k" = ge_int (Float 1234.5) 1000 /\
  ends_with_k "999.5" = ge_int (Float 999.5) 1000.
Proof.
  split.
  - apply (label_suffix (Float 1234.5) "1.2k"). reflexivity.
  - apply (label_suffix (Float 999.5) "999.5"). reflexivity.
Defined.

(** The label of an int below 1000, when there is one, is its decimal
    string. *)
Lemma format_number_int_small_inv (z : Z) (label : string) :
  z < 1000 -> format_number (Int z) = ret label -> label = str_int z.
Proof.
  intros Hz. unfold format_number. simpl ge_int.
  apply Z.leb_gt in Hz. rewrite Hz. unfold str, str_of_int.
  destruct (int_max_str_digits <? int_digits z); [discriminate |].
  intros E. apply ret_inj in E. symmetry. exact E.
Qed.

(** Below 1000 the label of an int determines it: two ints that are given
    the same label are the same int.  (Two ints that are given no label,
    both of more than 4300 digits, need not be.) *)
Theorem int_labels_injective (z1 z2 : Z) (label : string) :
  z1 < 1000 -> z2 < 1000 ->
  format_number (Int z1) = ret label ->
  format_number (Int z2) = ret label ->
  z1 = z2.
Proof.
  intros H1 H2 E1 E2.
  apply format_number_int_small_inv in E1; [| exact H1].
  apply format_number_int_small_inv in E2; [| exact H2].
  apply str_int_inj. congruence.
Qed.

Lemma int_labels_injective_witness :
  format_number (Int (-7)) = ret "-7" /\ (-7) = (-7).
Proof.
  split; [reflexivity |].
  apply (int_labels_injective (-7) (-7) "-7"); [lia | lia | reflexivity | reflexivity].
Defined.

(** The helper fails on two kinds of int and on nothing else: on an int of
    at least 1000 whose quotient by 1000 is beyond the floats, with
    OverflowError, and on an int of at most -10**4300, which has more
    digits than str accepts, with ValueError.  On a float it always
    returns. *)
Theorem format_number_raises_iff (n : num) (e : exn) :
  format_number n = raise e <->
  (e = OverflowError /\
   exists z, n = Int z /\ 1000 <= z /\ is_infinity (int_quot z 1000) = true) \/
  (e = ValueError /\
   exists z, n = Int z /\ z <= - 10 ^ int_max_str_digits).
Proof.
  split.
  - destruct n as [z | f].
    + destruct (Z.leb_spec 1000 z) as [Hz | Hz].
      * destruct (is_infinity (int_quot z 1000)) eqn:Hq.
        -- rewrite format_number_int_overflow by assumption.
           intros E. unfold raise in E. injection E as E. subst e.
           left. split; [reflexivity |]. exists z. repeat split; assumption.
        -- rewrite format_number_int_large by assumption. discriminate.
      * destruct (Z.le_gt_cases z (- 10 ^ int_max_str_digits)) as [Hd | Hd].
        -- rewrite format_number_int_digits by assumption.
           intros E. unfold raise in E. injection E as E. subst e.
           right. split; [reflexivity |]. exists z. split; [reflexivity | exact Hd].
        -- rewrite format_number_int_small by lia. discriminate.
    + destruct (format_number_float f) as [label Hl]. rewrite Hl. discriminate.
  - intros [[He [z [Hn [Hz Hq]]]] | [He [z [Hn Hz]]]]; subst e n.
    + apply format_number_int_overflow; assumption.
    + apply format_number_int_digits; assumption.
Qed.

(** The stand-in that stops early keeps the contract as well. *)
Lemma gives_up_contract (n : nat) : scipy_contract (gives_up n).
Proof.
  intros f span y0 t_eval sol Hrun. unfold gives_up in Hrun.
  destruct (euler_steps f (fst span) y0 (firstn n t_eval)) as [e | rows] eqn:Hrows;
    [discriminate |].
  simpl in Hrun. apply ret_inj in Hrun. subst sol. simpl.
  apply euler_steps_length in Hrows. destruct Hrows as [H1 H2].
  split; [| discriminate].
  right. split; [reflexivity |].
  repeat constructor; assumption.
Qed.

(** So does the stand-in whose first step fails: its empty result is the
    first case of the contract. *)
Lemma fails_when_contract (bad : float * float -> bool) :
  scipy_contract (fails_when bad).
Proof.
  intros f span y0 t_eval sol Hrun. unfold fails_when in Hrun.
  destruct (bad y0); [| exact (euler_contract f span y0 t_eval sol Hrun)].
  apply ret_inj in Hrun. subst sol. simpl.
  split; [left; split; reflexivity | discriminate].
Qed.

Lemma traces_well_formed_witness :
  exists v,
    App.script (gives_up 100) 0.9%float 1000000%float 5000%float
               [(Int (10 ^ 6), Int (10 ^ 5))] = ret v /\
    Forall (fun tr => List.length (go.x tr) = List.length (go.y tr))
           (go.data (App.fig v)) /\
    Forall (fun tr => List.length (go.x tr) = List.length (go.y tr))
           (go.data (App.fig_phase_plane v)).
Proof.
  eexists. split; [vm_compute; reflexivity |].
  apply (traces_well_formed (gives_up 100) 0.9%float 1000000%float 5000%float
           [(Int (10 ^ 6), Int (10 ^ 5))]).
  - exact (gives_up_contract 100).
  - vm_compute. reflexivity.
Defined.
